(** * SmartContext: a shallow embedding of the three hooks

    The repository consists of three React hooks:
    - [useSmartContext]   (the Publisher),
    - [useContextSelector] (the Subscriber),
    - [useContextSetters]  (the Setter Accessor).

    The hooks keep their state in React cells ([useRef], [useMemo],
    [useReducer], effect dependencies).  The embedding makes those cells
    explicit fields of a [world] record and turns every hook body, effect
    and closure into a function on worlds.  JavaScript objects, arrays and
    functions are compared by identity, so each of them carries a location
    taken from an allocation counter; the listener array lives in a heap of
    arrays, because [push] mutates the array in place whereas [filter]
    builds a new one, and [forEach] keeps reading the array it was called
    on.

    Numbers are modelled as integers: the floating point values of
    JavaScript (NaN, negative zero) are outside the embedding.  Listener
    bodies and selectors are programs that return normally; a selector
    returns either a value that exists already or an object it has just
    allocated. *)

From stdpp Require Import gmap strings list fin_maps.
From Stdlib Require Import ZArith.

Local Open Scope Z_scope.
Local Open Scope nat_scope.

(** ** JavaScript values *)

Definition loc := nat.

Inductive value :=
| VUndefined
| VNull
| VBool (b : bool)
| VNum (n : Z)
| VStr (s : string)
| VObj (l : loc)   (* an object or array, known by its identity *)
| VFun (l : loc).  (* a function object, known by its identity *)

#[global] Instance value_eq_dec : EqDecision value.
Proof. solve_decision. Defined.

(** [a === b] *)
Definition strict_eq (a b : value) : bool := bool_decide (a = b).

(** [a !== b] *)
Definition strict_neq (a b : value) : bool := negb (strict_eq a b).

(** [Object.is(a, b)], the comparison React applies to dependency arrays.
    It differs from [===] on NaN and on signed zeros only. *)
Definition object_is (a b : value) : bool := bool_decide (a = b).

(** [!!v] *)
Definition truthy (v : value) : bool :=
  match v with
  | VUndefined | VNull => false
  | VBool b => b
  | VNum n => negb (n =? 0)%Z
  | VStr s => negb (bool_decide (s = ""%string))
  | VObj _ | VFun _ => true
  end.

(** An object: its identity and its own enumerable properties. *)
Record object := Object {
  ref : loc;
  props : gmap string value
}.

(** Errors a hook can raise. *)
Inductive error :=
| TypeError      (* calling something that is not a function *)
| ProviderError. (* the [new Error('The context provided to ...')] of the consumer hooks *)

Inductive outcome (A : Type) :=
| Ok (a : A)
| Throw (e : error).
Arguments Ok {A} a.
Arguments Throw {A} e.

Definition is_throw {A} (o : outcome A) : bool :=
  match o with Ok _ => false | Throw _ => true end.

(** ** Listeners *)

(** The functions found in the listener array: callbacks written by a
    user of the library, and the [checkForUpdates] callback of a
    [useContextSelector] call site ([useCallback] keeps one function per
    site).  Equality of listeners is identity of functions. *)
Inductive listener :=
| UserFn (n : nat)
| CheckForUpdates (site : nat).

#[global] Instance listener_eq_dec : EqDecision listener.
Proof. solve_decision. Defined.

(** What a user callback may do with the published value: read the
    state, subscribe a listener, call an unsubscribe handle.  A handle
    returned by [subscribe(cb)] is the closure
    [() => subscribersRef.current = subscribersRef.current.filter(sub => sub !== cb)],
    so it is determined by [cb]. *)
Inductive prog :=
| Done
| GetState (k : value -> prog)
| Subscribe (cb : listener) (k : prog)
| Unsubscribe (cb : listener) (k : prog).

(** What can be observed of a notification pass. *)
Inductive event :=
| Invoked (l : listener)   (* [sub()] *)
| Observed (v : value).    (* a listener received [v] from the Publisher's [getState()] *)

(** ** Selectors *)

(** What a call of a selector returns: a value that existed before the
    call (a primitive, a part of the state, the state itself), or an
    object allocated by the call, as [s => [s.count]] does. *)
Inductive selection :=
| Existing (v : value)
| Allocated.

Definition selector := value -> selection.

(** [sel(v)] in a heap whose next free location is [n]: the value
    returned and the next free location after the call. *)
Definition apply_selector (sel : selector) (n : loc) (v : value) : value * loc :=
  match sel v with
  | Existing x => (x, n)
  | Allocated => (VObj n, S n)
  end.

(** A selector that never allocates. *)
Definition pure_selector (p : value -> value) : selector :=
  fun v => Existing (p v).

(** ** The world *)

(** The cells of one [useContextSelector] call site. *)
Record site := Site {
  reducerState : nat;            (* [useReducer((s) => s + 1, 0)] *)
  pending : nat;                 (* [forceRender()] calls not yet rendered *)
  selectorRef : selector;        (* [selectorRef.current] *)
  selectedStateRef : value;      (* [selectedStateRef.current] *)
  siteStore : object             (* the [store] closed over by [checkForUpdates]
                                    ([useCallback] with [store] as dependency) *)
}.

Record world := World {
  next_loc : loc;                       (* allocation counter *)
  arrays : gmap loc (list listener);    (* the listener arrays ever allocated *)
  (* cells of useSmartContext *)
  prevStateRef : value;                 (* [prevStateRef.current] *)
  storeRef : value;                     (* [storeRef.current] *)
  subscribersRef : loc;                 (* [subscribersRef.current], an array *)
  layoutDeps : option value;            (* [state] of the last committed layout effect *)
  published : object;                   (* the [useMemo(..., [])] cell *)
  getStateFn : loc;                     (* identity of [() => storeRef.current] *)
  (* cells of the consumers *)
  sites : gmap nat site;                (* useContextSelector call sites *)
  memos : gmap nat (loc * object);      (* useContextSetters call sites: [store] and [rest] *)
  trace : list event
}.

Definition set_next_loc (n : loc) (w : world) : world :=
  World n (arrays w) (prevStateRef w) (storeRef w) (subscribersRef w)
        (layoutDeps w) (published w) (getStateFn w) (sites w) (memos w) (trace w).
Definition set_arrays (a : gmap loc (list listener)) (w : world) : world :=
  World (next_loc w) a (prevStateRef w) (storeRef w) (subscribersRef w)
        (layoutDeps w) (published w) (getStateFn w) (sites w) (memos w) (trace w).
Definition set_prevStateRef (v : value) (w : world) : world :=
  World (next_loc w) (arrays w) v (storeRef w) (subscribersRef w)
        (layoutDeps w) (published w) (getStateFn w) (sites w) (memos w) (trace w).
Definition set_storeRef (v : value) (w : world) : world :=
  World (next_loc w) (arrays w) (prevStateRef w) v (subscribersRef w)
        (layoutDeps w) (published w) (getStateFn w) (sites w) (memos w) (trace w).
Definition set_subscribersRef (a : loc) (w : world) : world :=
  World (next_loc w) (arrays w) (prevStateRef w) (storeRef w) a
        (layoutDeps w) (published w) (getStateFn w) (sites w) (memos w) (trace w).
Definition set_layoutDeps (d : option value) (w : world) : world :=
  World (next_loc w) (arrays w) (prevStateRef w) (storeRef w) (subscribersRef w)
        d (published w) (getStateFn w) (sites w) (memos w) (trace w).
Definition set_sites (s : gmap nat site) (w : world) : world :=
  World (next_loc w) (arrays w) (prevStateRef w) (storeRef w) (subscribersRef w)
        (layoutDeps w) (published w) (getStateFn w) s (memos w) (trace w).
Definition set_memos (m : gmap nat (loc * object)) (w : world) : world :=
  World (next_loc w) (arrays w) (prevStateRef w) (storeRef w) (subscribersRef w)
        (layoutDeps w) (published w) (getStateFn w) (sites w) m (trace w).
Definition record (e : event) (w : world) : world :=
  World (next_loc w) (arrays w) (prevStateRef w) (storeRef w) (subscribersRef w)
        (layoutDeps w) (published w) (getStateFn w) (sites w) (memos w) (trace w ++ [e]).

(** The array [a] as it is now ([[]] for a location that holds none). *)
Definition array_at (w : world) (a : loc) : list listener :=
  default [] (arrays w !! a).

(** [subscribersRef.current] *)
Definition registry (w : world) : list listener :=
  array_at w (subscribersRef w).

(** The listeners invoked in a trace, in order. *)
Definition invoked (t : list event) : list listener :=
  omap (fun e => match e with Invoked l => Some l | Observed _ => None end) t.

(** The values listeners received from [getState()] in a trace. *)
Definition observed (t : list event) : list value :=
  omap (fun e => match e with Observed v => Some v | Invoked _ => None end) t.

(** The events recorded between [w] and a later world [w']. *)
Definition events_since (w w' : world) : list event :=
  drop (length (trace w)) (trace w').

(** ** useSmartContext (the Publisher) *)

(** [getState: () => storeRef.current] *)
Definition getState (w : world) : value := storeRef w.

(** [subscribe: (cb) => { subscribersRef.current.push(cb); return () => ... }]
    [push] extends the current array in place. *)
Definition subscribe (cb : listener) (w : world) : world :=
  set_arrays (<[subscribersRef w := registry w ++ [cb]]> (arrays w)) w.

(** The handle returned by [subscribe(cb)]:
    [subscribersRef.current = subscribersRef.current.filter((sub) => sub !== cb)].
    [filter] allocates a new array, which the ref then points to; the
    previous array is left as it was. *)
Definition unsubscribe (cb : listener) (w : world) : world :=
  let kept := filter (fun sub => sub <> cb) (registry w) in
  set_subscribersRef (next_loc w)
    (set_next_loc (S (next_loc w))
       (set_arrays (<[next_loc w := kept]> (arrays w)) w)).

(** [forceRender()] of a call site: one more queued reducer action. *)
Definition forceRender (i : nat) (w : world) : world :=
  set_sites (alter (fun s => Site (reducerState s) (S (pending s))
                                  (selectorRef s) (selectedStateRef s)
                                  (siteStore s)) i (sites w)) w.

(** The [getState] of the object [store] is the closure of the Publisher
    of the world. *)
Definition publisher_getState (w : world) (store : object) : bool :=
  bool_decide (props store !! "getState" = Some (VFun (getStateFn w))).

Section Publisher.

(** What a function other than the Publisher's [getState] returns when it
    is called without arguments; such a call is taken to leave the
    Publisher alone. *)
Variable foreign : loc -> value.

(** The bodies of the user callbacks. *)
Variable user_code : nat -> prog.

(** [store.getState()] for the object [store] read from the context.  A
    missing or non-callable [getState] makes the call itself fail.  (A
    context value that is not an object has no [getState] either, and
    behaves here like an object without properties.) *)
Definition call_getState (w : world) (store : object) : outcome value :=
  match props store !! "getState" with
  | Some (VFun f) =>
      Ok (if decide (f = getStateFn w) then getState w else foreign f)
  | _ => Throw TypeError
  end.

(** [checkForUpdates] of call site [i] (useContextSelector, lines 45-50):
    [const newState = selectorRef.current(store.getState());
     if (newState !== selectedStateRef.current) forceRender();]
    where [store] is the object the call site read from the context.
    The selector is called anew, so what it allocates is new. *)
Definition checkForUpdates (i : nat) (w : world) : world :=
  match sites w !! i with
  | Some s =>
      match call_getState w (siteStore s) with
      | Ok v =>
          let w1 :=
            if publisher_getState w (siteStore s)
            then record (Observed v) w else w in
          let '(newState, n) := apply_selector (selectorRef s) (next_loc w1) v in
          let w2 := set_next_loc n w1 in
          if strict_neq newState (selectedStateRef s) then forceRender i w2 else w2
      | Throw _ =>
          (* a call site exists once a render has validated its store, and
             the hooks never change a store: this call cannot fail *)
          w
      end
  | None => w  (* no such call site: its handler cannot have been created *)
  end.

Fixpoint run (p : prog) (w : world) : world :=
  match p with
  | Done => w
  | GetState k => let v := getState w in run (k v) (record (Observed v) w)
  | Subscribe cb k => run k (subscribe cb w)
  | Unsubscribe cb k => run k (unsubscribe cb w)
  end.

(** [sub()] *)
Definition call (l : listener) (w : world) : world :=
  let w1 := record (Invoked l) w in
  match l with
  | UserFn n => run (user_code n) w1
  | CheckForUpdates i => checkForUpdates i w1
  end.

(** [Array.prototype.forEach]: the length is read once, then index [k]
    of the same array object is read at every round and the element, if
    present, is called. [n] counts the rounds left. *)
Fixpoint forEach_loop (a : loc) (k n : nat) (w : world) : world :=
  match n with
  | 0 => w
  | S n' =>
      forEach_loop a (S k) n'
        (match array_at w a !! k with
         | Some sub => call sub w
         | None => w
         end)
  end.

(** [subscribersRef.current.forEach((sub) => sub())] *)
Definition forEach (w : world) : world :=
  let a := subscribersRef w in
  forEach_loop a 0 (length (array_at w a)) w.

(** The body of the layout effect of a render that received [state]
    (useSmartContext, lines 50-56). *)
Definition layoutEffect (state : value) (w : world) : world :=
  if strict_neq (prevStateRef w) state
  then set_prevStateRef state (forEach w)
  else w.

(** Commit of a render that received [state]: [useLayoutEffect(..., [state])]
    runs its body on mount and whenever [state] is not the dependency of
    the last committed render. *)
Definition commit (state : value) (w : world) : world :=
  match layoutDeps w with
  | Some d =>
      if object_is d state then w
      else set_layoutDeps (Some state) (layoutEffect state w)
  | None => set_layoutDeps (Some state) (layoutEffect state w)
  end.

End Publisher.

(** The object built by the [useMemo] factory (useSmartContext, lines 60-71):
    [{ ...setters, subscribe: ..., getState: ... }].  The two closures sit
    after the spread, so they win over entries of [setters] with the same
    names. *)
Definition make_value (o fsub fget : loc) (setters : gmap string value) : object :=
  Object o (<["getState" := VFun fget]> (<["subscribe" := VFun fsub]> setters)).

(** First render of [useSmartContext(state, setters)] in a heap whose
    next free location is [n]: [useRef({})], [useRef(state)],
    [useRef([])] and the [useMemo] factory all run. *)
Definition useSmartContext_mount (n : loc) (state : value)
    (setters : gmap string value) : world * object :=
  let prev := n in                (* {} *)
  let arr := S n in               (* [] *)
  let o := S (S n) in             (* the published object *)
  let fsub := S (S (S n)) in      (* subscribe *)
  let fget := S (S (S (S n))) in  (* getState *)
  let v := make_value o fsub fget setters in
  (World (S fget) {[arr := []]} (VObj prev) state arr None v fget ∅ ∅ [], v).

(** Any later render of [useSmartContext(state, setters)]: the three
    [useRef] calls return their cells, [storeRef.current = state] is
    executed, and [useMemo] returns its cell; [setters] is not looked at
    again. *)
Definition useSmartContext (w : world) (state : value)
    (setters : gmap string value) : world * object :=
  let w1 := set_storeRef state w in
  (w1, published w1).

(** ** The consumers *)

Section Consumers.

Variable foreign : loc -> value.

(** One render of [useContextSelector(context, selector)] at call site
    [i], where [store] is what [React.useContext(context)] returned
    (useContextSelector, lines 30-43 and 59).  [useReducer] consumes the
    queued [forceRender] actions; the selector is called twice, at line
    42 for the argument of [useRef] (which only the first render keeps,
    until line 43 overwrites it) and at line 43; both refs are
    (re)assigned; [useCallback] closes [checkForUpdates] over [store];
    the result is [selectedStateRef.current]. *)
Definition useContextSelector (w : world) (i : nat) (store : object)
    (sel : selector) : outcome (value * world) :=
  match call_getState foreign w store with
  | Throw e => Throw e
  | Ok v =>
      if negb (truthy v) then Throw ProviderError
      else
        let count :=
          match sites w !! i with
          | Some s => reducerState s + pending s
          | None => 0
          end in
        let '(_, n1) := apply_selector sel (next_loc w) v in
        let '(selected, n2) := apply_selector sel n1 v in
        Ok (selected,
            set_sites (<[i := Site count 0 sel selected store]> (sites w))
              (set_next_loc n2 w))
  end.

(** The [useEffect] of call site [i] under the Publisher of the world:
    [const subscription = store.subscribe(checkForUpdates)]. *)
Definition useContextSelector_effect (i : nat) (w : world) : world :=
  subscribe (CheckForUpdates i) w.

(** Its cleanup: [subscription()]. *)
Definition useContextSelector_cleanup (i : nat) (w : world) : world :=
  unsubscribe (CheckForUpdates i) w.

(** [const { getState, subscribe, ...rest } = store; return rest;]
    allocated at [o]. *)
Definition rest_of (o : loc) (store : object) : object :=
  Object o (delete "subscribe" (delete "getState" (props store))).

(** One render of [useContextSetters(context)] at call site [j]: the
    same validation as in [useContextSelector], then
    [useMemo(..., [store])], which runs its factory on the first render
    and when [store] is another object than at the previous render. *)
Definition useContextSetters (w : world) (j : nat) (store : object)
    : outcome (object * world) :=
  match call_getState foreign w store with
  | Throw e => Throw e
  | Ok v =>
      if negb (truthy v) then Throw ProviderError
      else
        let fresh :=
          let rest := rest_of (next_loc w) store in
          Ok (rest, set_memos (<[j := (ref store, rest)]> (memos w))
                      (set_next_loc (S (next_loc w)) w)) in
        match memos w !! j with
        | Some (dep, rest) =>
            if decide (dep = ref store) then Ok (rest, w) else fresh
        | None => fresh
        end
  end.

(** ** Life of a Publisher *)

Variable user_code : nat -> prog.

(** What can happen to a world once the Publisher is mounted. *)
Inductive step : world -> world -> Prop :=
| step_render w state setters :
    step w (fst (useSmartContext w state setters))
| step_commit w :
    (* the layout effect belongs to the last render, whose [state] is in [storeRef] *)
    step w (commit foreign user_code (storeRef w) w)
| step_subscribe w cb :
    step w (subscribe cb w)
| step_unsubscribe w cb :
    step w (unsubscribe cb w)
| step_select w i sel v w' :
    useContextSelector w i (published w) sel = Ok (v, w') ->
    step w w'
| step_setters w j o w' :
    useContextSetters w j (published w) = Ok (o, w') ->
    step w w'.

(** The worlds of a Publisher constructed with [state0] and [setters0]. *)
Inductive reachable (n : loc) (state0 : value) (setters0 : gmap string value)
  : world -> Prop :=
| reach_mount :
    reachable n state0 setters0 (fst (useSmartContext_mount n state0 setters0))
| reach_step w w' :
    reachable n state0 setters0 w -> step w w' ->
    reachable n state0 setters0 w'.

(** One update of the Publisher: the owner renders with [state], then
    the render is committed. *)
Definition update (state : value) (setters : gmap string value) (w : world) : world :=
  commit foreign user_code state (fst (useSmartContext w state setters)).

End Consumers.

(** ** Notions used to state the properties *)

(** The effect of a callback on the listener list alone, when the
    Publisher holds the state [s]. *)
Fixpoint prog_registry (p : prog) (s : value) (r : list listener) : list listener :=
  match p with
  | Done => r
  | GetState k => prog_registry (k s) s r
  | Subscribe cb k => prog_registry k s (r ++ [cb])
  | Unsubscribe cb k => prog_registry k s (filter (fun sub => sub <> cb) r)
  end.

Definition listener_registry (user_code : nat -> prog) (l : listener)
    (s : value) (r : list listener) : list listener :=
  match l with
  | UserFn n => prog_registry (user_code n) s r
  | CheckForUpdates _ => r
  end.

(** A pass written over a fixed list of listeners. *)
Definition call_all (foreign : loc -> value) (user_code : nat -> prog)
    (xs : list listener) (w : world) : world :=
  foldl (fun w' l => call foreign user_code l w') w xs.

(** Number of registrations of [l] in a listener list. *)
Definition registrations (l : listener) (xs : list listener) : nat :=
  length (filter (fun sub => sub = l) xs).

(** What the selector of a site with cells [s] returns for [v] when it
    is called in a heap whose next free location is [n]. *)
Definition fresh_projection (s : site) (n : loc) (v : value) : value :=
  fst (apply_selector (selectorRef s) n v).

(** Whether [checkForUpdates] of a site with cells [s] asks for a render
    when its store holds [v] and the next free location is [n]. *)
Definition differs (s : site) (n : loc) (v : value) : bool :=
  strict_neq (fresh_projection s n v) (selectedStateRef s).

(** The same question without the heap: an existing value is compared
    with the stored projection, a newly allocated object differs from
    it. *)
Definition changed (s : site) (v : value) : bool :=
  match selectorRef s v with
  | Existing x => strict_neq x (selectedStateRef s)
  | Allocated => true
  end.

(** The value [v] was not allocated at [n] or later. *)
Definition allocated_before (n : loc) (v : value) : Prop :=
  forall l, v = VObj l -> l < n.

(** What a render of [useContextSelector] stores and returns when its
    selector is given [v] and the next free location is [n]: the result
    of the second of its two calls. *)
Definition render_projection (sel : selector) (n : loc) (v : value) : value :=
  match sel v with
  | Existing x => x
  | Allocated => VObj (S n)
  end.

(** The cells of a world are consistent: the current listener array has
    been allocated, and the dependency of the last committed layout
    effect is the state it stored. *)
Definition wf (w : world) : Prop :=
  subscribersRef w < next_loc w /\
  match layoutDeps w with
  | Some d => d = prevStateRef w
  | None => True
  end.

(** [forceRender] calls of call site [i] that no render has consumed yet. *)
Definition pending_of (i : nat) (w : world) : nat :=
  from_option pending 0 (sites w !! i).

(** Between [w] and [w'] a re-evaluation of call site [i] was scheduled. *)
Definition scheduled (i : nat) (w w' : world) : Prop :=
  pending_of i w < pending_of i w'.

(** [w'] comes from [w] by listener activity during which the listeners
    [xs] were invoked. *)
Record evolves (xs : list listener) (w w' : world) : Prop := Evolves {
  ev_next : next_loc w <= next_loc w';
  ev_arrays : forall a, a < next_loc w ->
      exists ext, array_at w' a = array_at w a ++ ext;
  ev_current : subscribersRef w < next_loc w -> subscribersRef w' < next_loc w';
  ev_store : storeRef w' = storeRef w;
  ev_prev : prevStateRef w' = prevStateRef w;
  ev_deps : layoutDeps w' = layoutDeps w;
  ev_published : published w' = published w;
  ev_getStateFn : getStateFn w' = getStateFn w;
  ev_memos : memos w' = memos w;
  ev_trace : exists evs, trace w' = trace w ++ evs /\ invoked evs = xs /\
      Forall (fun v => v = storeRef w) (observed evs)
}.

(** A pass that leaves out the listeners removed before their turn: if
    [l] is gone from the registry when the listeners before it have run,
    it is not invoked. *)
Definition skips_removed (foreign : loc -> value) (user_code : nat -> prog)
    (w : world) (state : value) (setters : gmap string value) : Prop :=
  forall pre l post,
    registry w = pre ++ l :: post ->
    l ∉ registry (call_all foreign user_code pre (fst (useSmartContext w state setters))) ->
    l ∉ invoked (events_since w (update foreign user_code state setters w)).

(** Unsubscribe handles that remove one registration each: after
    [subscribe(f)] twice and one call of a handle, one of the two
    registrations is left. *)
Definition independent_handles (w : world) (f : listener) : Prop :=
  registrations f (registry (unsubscribe f (subscribe f (subscribe f w)))) =
  S (registrations f (registry w)).

(** [store.getState] is absent, or is not a function. *)
Definition getState_missing (store : object) : Prop :=
  forall f, props store !! "getState" <> Some (VFun f).

(** A change-handler that stores what it computed: when the fresh
    projection differs from the stored one, the stored one becomes the
    fresh one. *)
Definition handler_stores_projection (foreign : loc -> value) (w : world)
    (i : nat) : Prop :=
  forall s v, sites w !! i = Some s ->
    call_getState foreign w (siteStore s) = Ok v ->
    differs s (next_loc w) v = true ->
    exists s', sites (checkForUpdates foreign i w) !! i = Some s' /\
               selectedStateRef s' = fresh_projection s (next_loc w) v.

(** A Snapshot replacement from [S_old] to [S_new], leading from [w] to
    [w'], after which the call site [i] with projection [p] has scheduled
    a re-evaluation if and only if [p(S_new) !== p(S_old)]. *)
Definition schedules_iff_projection_changes (i : nat) (p : value -> value)
    (S_old S_new : value) (w w' : world) : Prop :=
  scheduled i w w' <-> strict_neq (p S_new) (p S_old) = true.

(** Every consumer cell of a world was computed from the object [v0]. *)
Definition memos_of (v0 : object) (w : world) : Prop :=
  forall j dep rest, memos w !! j = Some (dep, rest) ->
    dep = ref v0 /\
    props rest = delete "subscribe" (delete "getState" (props v0)).

(** ** A small application *)

(** User callbacks: callback 0 calls the unsubscribe handle of callback 1,
    callback 2 reads the state, the others do nothing. *)
Definition demo_code (n : nat) : prog :=
  match n with
  | 0 => Unsubscribe (UserFn 1) Done
  | 2 => GetState (fun _ => Done)
  | _ => Done
  end.

Definition demo_foreign (l : loc) : value := VUndefined.

(** The snapshots [{count: 0}] and [{count: 1}], and the mutator set
    [{setCount}]. *)
Definition snapshot0 : value := VObj 0.
Definition snapshot1 : value := VObj 50.
(** [{count: 0, unrelated: true}] *)
Definition snapshot2 : value := VObj 51.
Definition demo_setters : gmap string value := {["setCount" := VFun 1]}.

(** [s => s.count] on these snapshots. *)
Definition selectCount (s : value) : value :=
  match s with
  | VObj 0 => VNum 0
  | VObj 50 => VNum 1
  | VObj 51 => VNum 0
  | _ => VUndefined
  end.

(** The Publisher after its first render and commit. *)
Definition demo_mounted : world :=
  commit demo_foreign demo_code snapshot0
    (fst (useSmartContext_mount 2 snapshot0 demo_setters)).

(** Callbacks 1 and 2 registered. *)
Definition demo_two_listeners : world :=
  subscribe (UserFn 2) (subscribe (UserFn 1) demo_mounted).

(** Callbacks 0 and 1 registered: the first removes the second. *)
Definition demo_removing_listener : world :=
  subscribe (UserFn 1) (subscribe (UserFn 0) demo_mounted).

(** A component reading [count] is mounted under the Publisher: first
    render, then the effect that subscribes its handler. *)
Definition demo_subscribed : world :=
  match useContextSelector demo_foreign demo_mounted 0 (published demo_mounted)
          (pure_selector selectCount) with
  | Ok (_, w) => useContextSelector_effect 0 w
  | Throw _ => demo_mounted
  end.

(** The owner has rendered with [{count: 1}]; the commit is still to come. *)
Definition demo_rendered : world :=
  fst (useSmartContext demo_subscribed snapshot1 demo_setters).


(** The subscribed component evaluated again after the owner has rendered
    with [{count: 1}] (its parent rendered, say), and then the commit of
    the owner's render. *)
Definition demo_reevaluated : world :=
  match useContextSelector demo_foreign demo_rendered 0 (published demo_rendered)
          (pure_selector selectCount) with
  | Ok (_, w) => w
  | Throw _ => demo_rendered
  end.

Definition demo_reevaluated_committed : world :=
  commit demo_foreign demo_code snapshot1 demo_reevaluated.

(** [s => [s.count]]: a new array at every call. *)
Definition selectCountArray : selector := fun _ => Allocated.

(** A selector that does not look at the state. *)
Definition selectSeven : selector := pure_selector (fun _ => VNum 7).

(** The subscribed component rendered again, now with [selectSeven]. *)
Definition demo_reselected : world :=
  match useContextSelector demo_foreign demo_subscribed 0 (published demo_subscribed)
          selectSeven with
  | Ok (_, w) => w
  | Throw _ => demo_subscribed
  end.

(** * Properties *)

Section Properties.

Variable foreign : loc -> value.
Variable user_code : nat -> prog.


(** ** Elementary facts *)

Lemma strict_neq_true a b : strict_neq a b = true <-> a <> b.
Proof.
  unfold strict_neq, strict_eq. rewrite negb_true_iff, bool_decide_eq_false. done.
Qed.

Lemma strict_neq_false a b : strict_neq a b = false <-> a = b.
Proof.
  unfold strict_neq, strict_eq. rewrite negb_false_iff, bool_decide_eq_true. done.
Qed.

Lemma registry_subscribe cb w : registry (subscribe cb w) = registry w ++ [cb].
Proof.
  unfold registry, array_at, subscribe; simpl. by rewrite lookup_insert_eq.
Qed.

Lemma registry_unsubscribe cb w :
  registry (unsubscribe cb w) = filter (fun sub => sub <> cb) (registry w).
Proof.
  unfold registry at 1, array_at, unsubscribe; simpl. by rewrite lookup_insert_eq.
Qed.

Lemma invoked_app t1 t2 : invoked (t1 ++ t2) = invoked t1 ++ invoked t2.
Proof. unfold invoked. apply omap_app. Qed.

Lemma observed_app t1 t2 : observed (t1 ++ t2) = observed t1 ++ observed t2.
Proof. unfold observed. apply omap_app. Qed.

Lemma events_since_app w w' evs :
  trace w' = trace w ++ evs -> events_since w w' = evs.
Proof. unfold events_since. intros ->. by rewrite drop_app_length. Qed.

Lemma registrations_app l xs ys :
  registrations l (xs ++ ys) = registrations l xs + registrations l ys.
Proof. unfold registrations. by rewrite filter_app, length_app. Qed.

Lemma registrations_cons l x xs :
  registrations l (x :: xs) =
  (if decide (x = l) then 1 else 0) + registrations l xs.
Proof. unfold registrations. rewrite filter_cons. by destruct (decide (x = l)). Qed.

Lemma registrations_removed f xs :
  registrations f (filter (fun sub => sub <> f) xs) = 0.
Proof.
  induction xs as [|x xs IH]; [done|].
  rewrite filter_cons. destruct (decide (x <> f)) as [Hx|Hx]; [|done].
  rewrite registrations_cons, IH. by rewrite decide_False.
Qed.

Lemma registrations_kept f g xs :
  g <> f ->
  registrations g (filter (fun sub => sub <> f) xs) = registrations g xs.
Proof.
  intros Hg. induction xs as [|x xs IH]; [done|].
  rewrite filter_cons, (registrations_cons g x xs).
  destruct (decide (x <> f)) as [Hx|Hx].
  - by rewrite registrations_cons, IH.
  - rewrite IH. rewrite decide_False; [done|]. intros ->. by apply Hx.
Qed.

(** ** Listener activity *)

Lemma evolves_refl w : evolves [] w w.
Proof.
  split; try done.
  - intros a _. exists []. by rewrite app_nil_r.
  - exists []. by rewrite app_nil_r.
Qed.

Lemma evolves_trans xs ys w1 w2 w3 :
  evolves xs w1 w2 -> evolves ys w2 w3 -> evolves (xs ++ ys) w1 w3.
Proof.
  intros [N1 A1 C1 S1 P1 D1 V1 G1 M1 (e1 & T1 & I1 & O1)]
         [N2 A2 C2 S2 P2 D2 V2 G2 M2 (e2 & T2 & I2 & O2)].
  split; try congruence; try lia; try tauto.
  - intros a Ha. destruct (A1 a Ha) as [x1 E1].
    destruct (A2 a ltac:(lia)) as [x2 E2].
    exists (x1 ++ x2). by rewrite E2, E1, app_assoc.
  - exists (e1 ++ e2). rewrite T2, T1, app_assoc, invoked_app, observed_app, I1, I2.
    split_and!; try done. apply Forall_app. split; [done|].
    by rewrite S1 in O2.
Qed.

Lemma evolves_observe w : evolves [] w (record (Observed (getState w)) w).
Proof.
  split; try done.
  - intros a _. exists []. by rewrite app_nil_r.
  - exists [Observed (getState w)]. split_and!; try done.
    simpl. by constructor.
Qed.

Lemma evolves_invoke l w : evolves [l] w (record (Invoked l) w).
Proof.
  split; try done.
  - intros a _. exists []. by rewrite app_nil_r.
  - exists [Invoked l]. by split_and!.
Qed.

Lemma evolves_subscribe cb w : evolves [] w (subscribe cb w).
Proof.
  split; try done; simpl; try lia.
  - intros a _. unfold subscribe, registry, array_at; simpl.
    destruct (decide (subscribersRef w = a)) as [->|Hne].
    + rewrite lookup_insert_eq. by exists [cb].
    + rewrite lookup_insert_ne by done. exists []. by rewrite app_nil_r.
  - exists []. by rewrite app_nil_r.
Qed.

Lemma evolves_unsubscribe cb w : evolves [] w (unsubscribe cb w).
Proof.
  split; try done; simpl; try lia.
  - intros a Ha. unfold array_at, unsubscribe; simpl.
    rewrite lookup_insert_ne by lia. exists []. by rewrite app_nil_r.
  - exists []. by rewrite app_nil_r.
Qed.

Lemma evolves_forceRender i w : evolves [] w (forceRender i w).
Proof.
  split; try done.
  - intros a _. exists []. by rewrite app_nil_r.
  - exists []. by rewrite app_nil_r.
Qed.

Lemma apply_selector_next sel n v : n <= snd (apply_selector sel n v).
Proof. unfold apply_selector. destruct (sel v); simpl; lia. Qed.

Lemma evolves_alloc n w : next_loc w <= n -> evolves [] w (set_next_loc n w).
Proof.
  intros Hn. split; try done; simpl; try lia.
  - intros a _. exists []. by rewrite app_nil_r.
  - exists []. by rewrite app_nil_r.
Qed.

Lemma publisher_getState_call w store :
  publisher_getState w store = true ->
  call_getState foreign w store = Ok (getState w).
Proof.
  unfold publisher_getState, call_getState. intros ->%bool_decide_eq_true.
  by rewrite decide_True.
Qed.

Lemma evolves_checkForUpdates i w : evolves [] w (checkForUpdates foreign i w).
Proof.
  unfold checkForUpdates. destruct (sites w !! i) as [s|]; [|apply evolves_refl].
  destruct (call_getState foreign w (siteStore s)) as [v|] eqn:Hcall;
    [|apply evolves_refl].
  set (w1 := if publisher_getState w (siteStore s)
             then record (Observed v) w else w).
  assert (H1 : evolves [] w w1).
  { unfold w1. destruct (publisher_getState w (siteStore s)) eqn:Hpub;
      [|apply evolves_refl].
    rewrite (publisher_getState_call _ _ Hpub) in Hcall. injection Hcall as <-.
    apply evolves_observe. }
  pose proof (apply_selector_next (selectorRef s) (next_loc w1) v) as Hn.
  destruct (apply_selector (selectorRef s) (next_loc w1) v) as [newState n].
  simpl in Hn.
  assert (H2 : evolves [] w (set_next_loc n w1)).
  { change [] with (@nil listener ++ []).
    eapply evolves_trans; [exact H1|by apply evolves_alloc]. }
  destruct (strict_neq _ _); [|exact H2].
  change [] with (@nil listener ++ []).
  eapply evolves_trans; [exact H2|apply evolves_forceRender].
Qed.

Lemma evolves_run p : forall w, evolves [] w (run p w).
Proof.
  induction p as [|k IH|cb k IH|cb k IH]; intros w; simpl.
  - apply evolves_refl.
  - change [] with (@nil listener ++ []).
    eapply evolves_trans; [apply evolves_observe|apply IH].
  - change [] with (@nil listener ++ []).
    eapply evolves_trans; [apply evolves_subscribe|apply IH].
  - change [] with (@nil listener ++ []).
    eapply evolves_trans; [apply evolves_unsubscribe|apply IH].
Qed.

Lemma evolves_call l w : evolves [l] w (call foreign user_code l w).
Proof.
  unfold call. change [l] with ([l] ++ []).
  eapply evolves_trans; [apply evolves_invoke|].
  destruct l; [apply evolves_run|apply evolves_checkForUpdates].
Qed.

Lemma evolves_call_all xs : forall w, evolves xs w (call_all foreign user_code xs w).
Proof.
  induction xs as [|l xs IH]; intros w; simpl.
  - apply evolves_refl.
  - change (l :: xs) with ([l] ++ xs).
    eapply evolves_trans; [apply evolves_call|apply IH].
Qed.

(** ** [forEach] walks the array as it was when the pass started *)

Lemma forEach_loop_frozen a xs : forall pre ext w,
  a < next_loc w ->
  array_at w a = pre ++ xs ++ ext ->
  forEach_loop foreign user_code a (length pre) (length xs) w = call_all foreign user_code xs w.
Proof.
  induction xs as [|x xs IH]; intros pre ext w Ha Harr; [done|].
  simpl. rewrite Harr.
  rewrite lookup_app_r, Nat.sub_diag by lia. simpl.
  destruct (evolves_call x w) as [Hn Ha' _ _ _ _ _ _ _ _].
  destruct (Ha' a Ha) as [ext' Hext].
  replace (S (length pre)) with (length (pre ++ [x])) by (rewrite length_app; simpl; lia).
  apply (IH (pre ++ [x]) (ext ++ ext')); [lia|].
  rewrite Hext, Harr. by rewrite <- !app_assoc.
Qed.

Lemma forEach_frozen w :
  subscribersRef w < next_loc w ->
  forEach foreign user_code w = call_all foreign user_code (registry w) w.
Proof.
  intros Hw. unfold forEach.
  apply (forEach_loop_frozen (subscribersRef w) (registry w) [] []); [done|].
  simpl. by rewrite app_nil_r.
Qed.

(** Without any assumption on the world, a pass is still listener
    activity. *)
Lemma forEach_loop_evolves a n : forall k w,
  exists xs, evolves xs w (forEach_loop foreign user_code a k n w).
Proof.
  induction n as [|n IH]; intros k w; simpl.
  - exists []. apply evolves_refl.
  - destruct (array_at w a !! k) as [sub|].
    + destruct (IH (S k) (call foreign user_code sub w)) as [xs Hxs].
      exists ([sub] ++ xs). eapply evolves_trans; [apply evolves_call|done].
    + apply IH.
Qed.

(** ** The listener list during a pass *)

Lemma registry_run p : forall w,
  registry (run p w) = prog_registry p (storeRef w) (registry w).
Proof.
  induction p as [|k IH|cb k IH|cb k IH]; intros w; simpl; [done|..].
  - by rewrite IH.
  - by rewrite IH, registry_subscribe.
  - by rewrite IH, registry_unsubscribe.
Qed.

Lemma registry_checkForUpdates i w : registry (checkForUpdates foreign i w) = registry w.
Proof.
  unfold checkForUpdates. destruct (sites w !! i) as [s|]; [|done].
  destruct (call_getState foreign w (siteStore s)) as [v|]; [|done].
  destruct (publisher_getState w (siteStore s));
    destruct (apply_selector _ _ _) as [newState n];
    by destruct (strict_neq _ _).
Qed.

Lemma registry_call l w :
  registry (call foreign user_code l w) = listener_registry user_code l (storeRef w) (registry w).
Proof.
  destruct l; simpl.
  - by rewrite registry_run.
  - by rewrite registry_checkForUpdates.
Qed.

Lemma registry_call_all xs : forall w,
  registry (call_all foreign user_code xs w) =
  foldl (fun r l => listener_registry user_code l (storeRef w) r) (registry w) xs.
Proof.
  induction xs as [|l xs IH]; intros w; simpl; [done|].
  rewrite IH, registry_call.
  by rewrite (ev_store _ _ _ (evolves_call l w)).
Qed.

(** ** The call sites during a pass *)

Lemma sites_run p : forall w, sites (run p w) = sites w.
Proof.
  induction p as [|k IH|cb k IH|cb k IH]; intros w; simpl; [done|..]; by rewrite IH.
Qed.

Lemma call_getState_evolves xs w w' store :
  evolves xs w w' -> call_getState foreign w' store = call_getState foreign w store.
Proof.
  intros [_ _ _ Hs _ _ _ Hg _ _]. unfold call_getState, getState.
  by rewrite Hs, Hg.
Qed.

Lemma differs_changed s N n v :
  (selectorRef s v = Allocated -> allocated_before N (selectedStateRef s)) ->
  N <= n -> differs s n v = changed s v.
Proof.
  intros Hfresh Hn. unfold differs, fresh_projection, apply_selector, changed.
  destruct (selectorRef s v) as [x|]; [done|]. simpl.
  apply strict_neq_true. intros Heq.
  specialize (Hfresh eq_refl n (eq_sym Heq)). lia.
Qed.

Lemma site_checkForUpdates i j s w :
  sites w !! i = Some s ->
  exists s', sites (checkForUpdates foreign j w) !! i = Some s' /\
    reducerState s' = reducerState s /\
    selectorRef s' = selectorRef s /\
    selectedStateRef s' = selectedStateRef s /\
    siteStore s' = siteStore s /\
    pending s' = pending s +
      (if decide (j = i)
       then match call_getState foreign w (siteStore s) with
            | Ok v => if differs s (next_loc w) v then 1 else 0
            | Throw _ => 0
            end
       else 0).
Proof.
  intros Hs. unfold checkForUpdates.
  destruct (decide (j = i)) as [->|Hne].
  - rewrite Hs.
    destruct (call_getState foreign w (siteStore s)) as [v|];
      [|exists s; split_and!; try done; lia].
    unfold differs, fresh_projection.
    assert (Hnext : next_loc (if publisher_getState w (siteStore s)
                              then record (Observed v) w else w) = next_loc w)
      by (by destruct (publisher_getState w (siteStore s))).
    rewrite Hnext.
    destruct (apply_selector (selectorRef s) (next_loc w) v) as [newState n]. simpl.
    destruct (strict_neq newState (selectedStateRef s)); simpl.
    + rewrite lookup_alter_eq.
      destruct (publisher_getState w (siteStore s)); simpl; rewrite Hs; simpl;
        eexists; split_and!; try done; simpl; lia.
    + destruct (publisher_getState w (siteStore s)); simpl;
        exists s; split_and!; try done; lia.
  - destruct (sites w !! j) as [sj|]; [|exists s; split_and!; try done; lia].
    destruct (call_getState foreign w (siteStore sj)) as [v|];
      [|exists s; split_and!; try done; lia].
    destruct (publisher_getState w (siteStore sj));
      destruct (apply_selector _ _ _) as [newState n];
      destruct (strict_neq _ _); simpl;
      rewrite ?lookup_alter_ne by done;
      exists s; split_and!; try done; lia.
Qed.

Lemma site_call l i s w :
  sites w !! i = Some s ->
  exists s', sites (call foreign user_code l w) !! i = Some s' /\
    reducerState s' = reducerState s /\
    selectorRef s' = selectorRef s /\
    selectedStateRef s' = selectedStateRef s /\
    siteStore s' = siteStore s /\
    pending s' = pending s +
      (if decide (l = CheckForUpdates i)
       then match call_getState foreign w (siteStore s) with
            | Ok v => if differs s (next_loc w) v then 1 else 0
            | Throw _ => 0
            end
       else 0).
Proof.
  intros Hs. destruct l as [n|j]; simpl.
  - rewrite sites_run. simpl. exists s. by split_and!.
  - destruct (site_checkForUpdates i j s (record (Invoked (CheckForUpdates j)) w) Hs)
      as (s' & H1 & H2 & H3 & H4 & H5 & H6).
    exists s'. split_and!; try done. rewrite H6.
    destruct (decide (j = i)) as [->|Hne].
    + by rewrite decide_True.
    + rewrite decide_False; [done|congruence].
Qed.

Lemma site_call_all xs i : forall s w v d,
  sites w !! i = Some s ->
  call_getState foreign w (siteStore s) = Ok v ->
  (forall n, next_loc w <= n -> differs s n v = d) ->
  exists s', sites (call_all foreign user_code xs w) !! i = Some s' /\
    reducerState s' = reducerState s /\
    selectorRef s' = selectorRef s /\
    selectedStateRef s' = selectedStateRef s /\
    siteStore s' = siteStore s /\
    pending s' = pending s +
      (if d then registrations (CheckForUpdates i) xs else 0).
Proof.
  induction xs as [|l xs IH]; intros s w v d Hs Hv Hd; simpl.
  - exists s. split_and!; try done. destruct d; unfold registrations; simpl; lia.
  - destruct (site_call l i s w Hs) as (s1 & H1 & R1 & F1 & V1 & S1 & P1).
    pose proof (evolves_call l w) as Hev.
    assert (Hv1 : call_getState foreign (call foreign user_code l w) (siteStore s1) = Ok v).
    { by rewrite S1, (call_getState_evolves _ _ _ _ Hev). }
    assert (Hd1 : forall n, next_loc (call foreign user_code l w) <= n ->
                            differs s1 n v = d).
    { intros n Hn. pose proof (ev_next _ _ _ Hev).
      unfold differs, fresh_projection. rewrite F1, V1. apply Hd. lia. }
    destruct (IH s1 _ v d H1 Hv1 Hd1) as (s2 & H2 & R2 & F2 & V2 & S2 & P2).
    exists s2. split_and!; try congruence.
    rewrite P2, P1, Hv, (Hd (next_loc w)) by lia.
    rewrite registrations_cons.
    destruct d; destruct (decide (l = CheckForUpdates i)); simpl; lia.
Qed.

(** ** One update of the Publisher *)

Lemma update_notifies w state setters :
  wf w -> strict_neq (prevStateRef w) state = true ->
  update foreign user_code state setters w =
  set_layoutDeps (Some state)
    (set_prevStateRef state
       (call_all foreign user_code (registry w) (fst (useSmartContext w state setters)))).
Proof.
  intros [Hsub Hdeps] Hne.
  assert (Hpass : layoutEffect foreign user_code state (fst (useSmartContext w state setters)) =
    set_prevStateRef state
      (call_all foreign user_code (registry w) (fst (useSmartContext w state setters)))).
  { unfold layoutEffect. simpl. rewrite Hne.
    rewrite forEach_frozen by (simpl; lia). done. }
  unfold update, commit. rewrite Hpass. simpl.
  destruct (layoutDeps w) as [d|]; [|done].
  subst d. unfold object_is.
  apply strict_neq_true in Hne. by rewrite bool_decide_eq_false_2.
Qed.

Lemma update_quiet w state setters :
  strict_neq (prevStateRef w) state = false ->
  exists d, update foreign user_code state setters w =
            set_layoutDeps d (fst (useSmartContext w state setters)).
Proof.
  intros Heq. unfold update, commit, layoutEffect. simpl. rewrite Heq.
  destruct (layoutDeps w) as [d|] eqn:Hd.
  - destruct (object_is d state).
    + exists (Some d). rewrite <- Hd. reflexivity.
    + by exists (Some state).
  - by exists (Some state).
Qed.

Lemma commit_evolves w state :
  exists xs, evolves xs w
    (set_layoutDeps (layoutDeps w)
       (set_prevStateRef (prevStateRef w) (commit foreign user_code state w))).
Proof.
  assert (Hquiet : forall d, evolves [] w
            (set_layoutDeps (layoutDeps w) (set_prevStateRef (prevStateRef w)
               (set_layoutDeps d w)))).
  { intros d. destruct (evolves_refl w). by split. }
  assert (Hrun : exists xs, evolves xs w
            (set_layoutDeps (layoutDeps w) (set_prevStateRef (prevStateRef w)
               (set_layoutDeps (Some state) (layoutEffect foreign user_code state w))))).
  { unfold layoutEffect. destruct (strict_neq _ _).
    - destruct (forEach_loop_evolves (subscribersRef w) (length (registry w)) 0 w)
        as [xs Hxs].
      exists xs. destruct Hxs. by split.
    - exists []. apply Hquiet. }
  unfold commit.
  destruct (layoutDeps w) as [d|] eqn:Hd; [|done].
  destruct (object_is d state); [|done].
  exists []. rewrite <- Hd. destruct (evolves_refl w). by split.
Qed.

Lemma update_evolves w state setters :
  exists xs, evolves xs (fst (useSmartContext w state setters))
                        (set_layoutDeps (layoutDeps w)
                           (set_prevStateRef (prevStateRef w)
                              (update foreign user_code state setters w))).
Proof. apply (commit_evolves (fst (useSmartContext w state setters)) state). Qed.

Lemma update_getState w state setters :
  getState (update foreign user_code state setters w) = state.
Proof.
  destruct (update_evolves w state setters) as [xs [_ _ _ Hstore _ _ _ _ _ _]].
  exact Hstore.
Qed.

Lemma commit_deps w state :
  wf w ->
  match layoutDeps (commit foreign user_code state w) with
  | Some d => d = prevStateRef (commit foreign user_code state w)
  | None => True
  end.
Proof.
  intros [_ Hdeps]. unfold commit, layoutEffect.
  destruct (layoutDeps w) as [d|] eqn:Hd.
  - destruct (object_is d state); [by rewrite Hd|].
    destruct (strict_neq _ _) eqn:Hne; simpl; [done|].
    by apply strict_neq_false in Hne.
  - destruct (strict_neq _ _) eqn:Hne; simpl; [done|].
    by apply strict_neq_false in Hne.
Qed.

Lemma wf_commit w state : wf w -> wf (commit foreign user_code state w).
Proof.
  intros Hwf. split; [|by apply commit_deps].
  destruct (commit_evolves w state) as [xs [_ _ Hcur _ _ _ _ _ _ _]].
  apply Hcur, Hwf.
Qed.

Lemma wf_update w state setters : wf w -> wf (update foreign user_code state setters w).
Proof. intros Hwf. by apply wf_commit. Qed.

(** ** The Publisher: notification *)

(** C2: during an update the new Snapshot is in [storeRef] as soon as the
    owner has rendered, that is before the layout effect runs, so every
    value a listener receives from [getState()] during the notification
    pass is the new Snapshot, and [getState()] still returns it when the
    pass is over. *)
Theorem store_precedes_notification w state setters :
  getState (fst (useSmartContext w state setters)) = state /\
  Forall (fun v => v = state)
         (observed (events_since w (update foreign user_code state setters w))) /\
  getState (update foreign user_code state setters w) = state.
Proof.
  destruct (update_evolves w state setters)
    as [xs [_ _ _ Hstore _ _ _ _ _ (evs & Htr & _ & Hobs)]].
  simpl in Hstore, Htr, Hobs. split_and!; [done| |done].
  by rewrite (events_since_app _ _ evs).
Qed.

(** C4: when the Snapshot given to a render differs ([!==]) from the one
    stored by the previous notification, the commit invokes the listeners
    of the registry, each registration once, in the order of the array,
    which is the order of registration because [subscribe] appends; when
    it is the same reference no listener is invoked. *)
Theorem notification_pass w state setters :
  wf w ->
  (strict_neq (prevStateRef w) state = true ->
   invoked (events_since w (update foreign user_code state setters w)) = registry w) /\
  (strict_neq (prevStateRef w) state = false ->
   invoked (events_since w (update foreign user_code state setters w)) = []) /\
  (forall cb, registry (subscribe cb w) = registry w ++ [cb]).
Proof.
  intros Hwf. split_and!.
  - intros Hne. rewrite update_notifies by done.
    destruct (evolves_call_all (registry w) (fst (useSmartContext w state setters)))
      as [_ _ _ _ _ _ _ _ _ (evs & Htr & Hinv & _)].
    by rewrite (events_since_app _ _ evs).
  - intros Heq. destruct (update_quiet w state setters Heq) as [d ->].
    by rewrite (events_since_app _ _ []) by (simpl; by rewrite app_nil_r).
  - intros cb. apply registry_subscribe.
Qed.

(** C6, as amended: an unsubscribe handle called from inside a listener
    changes the registry at once but not the pass in progress.  The pass
    invokes every listener that was registered when it started, one
    removed earlier in the same pass included; the registry left by the
    pass is the one obtained by applying, in order, the [subscribe] and
    unsubscribe calls the listeners made, and the cells are consistent
    again, so later passes work on a correct registry. *)
Theorem pass_over_frozen_registry w state setters :
  wf w ->
  strict_neq (prevStateRef w) state = true ->
  invoked (events_since w (update foreign user_code state setters w)) = registry w /\
  registry (update foreign user_code state setters w) =
    foldl (fun r l => listener_registry user_code l state r) (registry w) (registry w) /\
  wf (update foreign user_code state setters w).
Proof.
  intros Hwf Hne. split_and!; [| |by apply wf_update];
    rewrite update_notifies by done.
  - destruct (evolves_call_all (registry w) (fst (useSmartContext w state setters)))
      as [_ _ _ _ _ _ _ _ _ (evs & Htr & Hinv & _)].
    by rewrite (events_since_app _ _ evs).
  - change (registry (set_layoutDeps ?d (set_prevStateRef ?p ?x))) with (registry x).
    by rewrite registry_call_all.
Qed.

(** C5, as amended: [subscribe(f)] called twice puts [f] twice at the end
    of the registry and [f] is invoked once per registration by the next
    pass; either unsubscribe handle removes every registration of [f],
    and leaves the registrations of the other listeners as they were. *)
Theorem double_subscription w f state setters :
  wf w ->
  strict_neq (prevStateRef w) state = true ->
  registry (subscribe f (subscribe f w)) = registry w ++ [f; f] /\
  registrations f
    (invoked (events_since (subscribe f (subscribe f w))
                (update foreign user_code state setters (subscribe f (subscribe f w))))) =
    registrations f (registry w) + 2 /\
  registry (unsubscribe f (subscribe f (subscribe f w))) =
    filter (fun sub => sub <> f) (registry w) /\
  registrations f (registry (unsubscribe f (subscribe f (subscribe f w)))) = 0 /\
  (forall g, g <> f ->
     registrations g (registry (unsubscribe f (subscribe f (subscribe f w)))) =
     registrations g (registry w)).
Proof.
  intros [Hsub Hdeps] Hne.
  assert (Hreg : registry (subscribe f (subscribe f w)) = registry w ++ [f; f]).
  { by rewrite !registry_subscribe, <- app_assoc. }
  assert (Hun : registry (unsubscribe f (subscribe f (subscribe f w))) =
                filter (fun sub => sub <> f) (registry w)).
  { rewrite registry_unsubscribe, Hreg, filter_app.
    rewrite (filter_cons _ f), decide_False by (intros H; by apply H).
    rewrite (filter_cons _ f), decide_False by (intros H; by apply H).
    by rewrite filter_nil, app_nil_r. }
  split_and!; [done| |done| |].
  - rewrite update_notifies; [|split; simpl; [lia|done]|done].
    destruct (evolves_call_all (registry (subscribe f (subscribe f w)))
                (fst (useSmartContext (subscribe f (subscribe f w)) state setters)))
      as [_ _ _ _ _ _ _ _ _ (evs & Htr & Hinv & _)].
    rewrite (events_since_app _ _ evs) by done.
    rewrite Hinv, Hreg, registrations_app, !registrations_cons.
    rewrite decide_True by done. unfold registrations at 2. simpl. lia.
  - rewrite Hun. apply registrations_removed.
  - intros g Hg. rewrite Hun. by apply registrations_kept.
Qed.

(** ** Invariants of a Publisher's life *)

Lemma wf_mount n state setters : wf (fst (useSmartContext_mount n state setters)).
Proof. split; simpl; [lia|done]. Qed.

Lemma select_inv w i store sel v w' :
  useContextSelector foreign w i store sel = Ok (v, w') ->
  exists ss n, next_loc w <= n /\ w' = set_sites ss (set_next_loc n w).
Proof.
  unfold useContextSelector. destruct (call_getState _ _ _) as [x|]; [|done].
  destruct (negb (truthy x)); [done|].
  pose proof (apply_selector_next sel (next_loc w) x) as H1.
  destruct (apply_selector sel (next_loc w) x) as [y n1]. simpl in H1.
  pose proof (apply_selector_next sel n1 x) as H2.
  destruct (apply_selector sel n1 x) as [z n2]. simpl in H2.
  intros [= _ <-]. eexists. exists n2. split; [lia|done].
Qed.

Lemma setters_inv w j store o w' :
  useContextSetters foreign w j store = Ok (o, w') ->
  w' = w \/
  w' = set_memos (<[j := (ref store, rest_of (next_loc w) store)]> (memos w))
         (set_next_loc (S (next_loc w)) w).
Proof.
  unfold useContextSetters. destruct (call_getState _ _ _) as [x|]; [|done].
  destruct (negb (truthy x)); [done|].
  destruct (memos w !! j) as [[dep rest]|].
  - destruct (decide (dep = ref store)); intros [= _ <-]; auto.
  - intros [= _ <-]. auto.
Qed.

Lemma wf_step w w' : step foreign user_code w w' -> wf w -> wf w'.
Proof.
  intros Hstep [Hsub Hdeps]. destruct Hstep as [w state setters|w|w cb|w cb|w i sel v w' H|w j o w' H].
  - split; simpl; [lia|done].
  - by apply wf_commit.
  - split; simpl; [lia|done].
  - split; simpl; [lia|done].
  - destruct (select_inv _ _ _ _ _ _ H) as (ss & n & Hn & ->). split; simpl; [lia|done].
  - destruct (setters_inv _ _ _ _ _ H) as [->| ->]; [done|]. split; simpl; [lia|done].
Qed.

Lemma published_step w w' :
  step foreign user_code w w' ->
  published w' = published w /\ getStateFn w' = getStateFn w.
Proof.
  intros Hstep. destruct Hstep as [w state setters|w|w cb|w cb|w i sel v w' H|w j o w' H];
    try done.
  - destruct (commit_evolves w (storeRef w)) as [xs [_ _ _ _ _ _ Hp Hg _ _]]. done.
  - by destruct (select_inv _ _ _ _ _ _ H) as (ss & n & Hn & ->).
  - by destruct (setters_inv _ _ _ _ _ H) as [->| ->].
Qed.

Lemma memos_step w w' :
  step foreign user_code w w' -> memos_of (published w) w -> memos_of (published w) w'.
Proof.
  intros Hstep Hm. destruct Hstep as [w state setters|w|w cb|w cb|w i sel v w' H|w j o w' H];
    try done.
  - destruct (commit_evolves w (storeRef w)) as [xs [_ _ _ _ _ _ _ _ Hmem _]].
    intros j dep rest. simpl in Hmem. rewrite Hmem. apply Hm.
  - by destruct (select_inv _ _ _ _ _ _ H) as (ss & n & Hn & ->).
  - destruct (setters_inv _ _ _ _ _ H) as [->| ->]; [done|].
    intros j' dep rest. simpl. rewrite lookup_insert.
    destruct (decide (j = j')); [|apply Hm].
    by intros [= <- <-].
Qed.

Lemma reachable_inv n state0 setters0 w :
  reachable foreign user_code n state0 setters0 w ->
  wf w /\
  published w = snd (useSmartContext_mount n state0 setters0) /\
  getStateFn w = S (S (S (S n))) /\
  memos_of (published w) w.
Proof.
  induction 1 as [|w w' _ (Hwf & Hp & Hg & Hm) Hstep].
  - split_and!; [apply wf_mount|done|done|]. intros j dep rest. simpl.
    by rewrite lookup_empty.
  - destruct (published_step _ _ Hstep) as [Hp' Hg'].
    split_and!; [by eapply wf_step|congruence|congruence|].
    rewrite Hp'. by apply memos_step.
Qed.

Lemma published_getState n state0 setters0 w :
  reachable foreign user_code n state0 setters0 w ->
  call_getState foreign w (published w) = Ok (storeRef w).
Proof.
  intros (_ & Hp & Hg & _)%reachable_inv.
  unfold call_getState. rewrite Hp. simpl. rewrite lookup_insert_eq.
  by rewrite decide_True.
Qed.

(** ** The Published Value *)

(** C3: the object returned by every render of the Publisher is the one
    built by its first render (same identity, same properties), and
    [getState()] called on it returns the Snapshot of the latest render,
    during the render as well as after its commit. *)
Theorem published_value_stable n state0 setters0 w state setters :
  reachable foreign user_code n state0 setters0 w ->
  snd (useSmartContext w state setters) =
    snd (useSmartContext_mount n state0 setters0) /\
  call_getState foreign (fst (useSmartContext w state setters))
    (snd (useSmartContext_mount n state0 setters0)) = Ok state /\
  call_getState foreign (update foreign user_code state setters w)
    (snd (useSmartContext_mount n state0 setters0)) = Ok state.
Proof.
  intros Hw.
  assert (H1 : reachable foreign user_code n state0 setters0
                 (fst (useSmartContext w state setters))).
  { eapply reach_step; [done|constructor]. }
  assert (H2 : reachable foreign user_code n state0 setters0
                 (update foreign user_code state setters w)).
  { eapply reach_step; [exact H1|].
    apply (step_commit foreign user_code (fst (useSmartContext w state setters))). }
  destruct (reachable_inv _ _ _ _ Hw) as (_ & Hp & _).
  destruct (reachable_inv _ _ _ _ H1) as (_ & Hp1 & _).
  destruct (reachable_inv _ _ _ _ H2) as (_ & Hp2 & _).
  split_and!.
  - done.
  - rewrite <- Hp1. by rewrite (published_getState _ _ _ _ H1).
  - rewrite <- Hp2, (published_getState _ _ _ _ H2).
    f_equal. apply update_getState.
Qed.

(** ** Validation in the consumers *)

Lemma call_getState_throw w store :
  is_throw (call_getState foreign w store) = true <-> getState_missing store.
Proof.
  unfold call_getState, getState_missing.
  destruct (props store !! "getState") as [[]|]; simpl; split; try done.
  intros H. by destruct (H l).
Qed.

Lemma validation_selector w i store selector :
  match call_getState foreign w store with
  | Throw e => useContextSelector foreign w i store selector = Throw e
  | Ok v =>
      if truthy v
      then is_throw (useContextSelector foreign w i store selector) = false
      else useContextSelector foreign w i store selector = Throw ProviderError
  end.
Proof.
  unfold useContextSelector. destruct (call_getState _ _ _) as [v|]; [|done].
  destruct (truthy v); simpl; [|done].
  destruct (apply_selector selector (next_loc w) v) as [y n1].
  by destruct (apply_selector selector n1 v).
Qed.

Lemma validation_setters w j store :
  match call_getState foreign w store with
  | Throw e => useContextSetters foreign w j store = Throw e
  | Ok v =>
      if truthy v
      then is_throw (useContextSetters foreign w j store) = false
      else useContextSetters foreign w j store = Throw ProviderError
  end.
Proof.
  unfold useContextSetters. destruct (call_getState _ _ _) as [v|]; [|done].
  destruct (truthy v); simpl; [|done].
  destruct (memos w !! j) as [[dep rest]|]; [|done].
  by destruct (decide _).
Qed.

(** C8: a render of [useContextSelector] or of [useContextSetters]
    raises, at once and to its caller, exactly when the object read from
    the context has no callable [getState] or when its [getState()]
    returns a falsy value; in every other case the render raises
    nothing. *)
Theorem consumers_validate_store w i j store selector :
  (is_throw (useContextSelector foreign w i store selector) = true <->
   getState_missing store \/
   exists v, call_getState foreign w store = Ok v /\ truthy v = false) /\
  (is_throw (useContextSetters foreign w j store) = true <->
   getState_missing store \/
   exists v, call_getState foreign w store = Ok v /\ truthy v = false).
Proof.
  pose proof (validation_selector w i store selector) as Hsel.
  pose proof (validation_setters w j store) as Hset.
  pose proof (call_getState_throw w store) as Hmiss.
  destruct (call_getState foreign w store) as [v|e] eqn:Hcall; simpl in Hmiss.
  - destruct (truthy v) eqn:Hv.
    + rewrite Hsel, Hset. split; (split; [done|]).
      * intros [H|(v' & [= <-] & H)]; [by apply Hmiss in H|congruence].
      * intros [H|(v' & [= <-] & H)]; [by apply Hmiss in H|congruence].
    + rewrite Hsel, Hset. simpl. split; (split; [|done]); intros _; right; eauto.
  - rewrite Hsel, Hset. simpl. split; (split; [|done]); intros _; left; by apply Hmiss.
Qed.

(** C10: while the Snapshot held by a Publisher is falsy, every render
    of [useContextSelector] and of [useContextSetters] under that
    Publisher raises the provider error, although the object they read is
    the one the Publisher built: the check looks at the truthiness of what
    [getState()] returns. *)
Theorem falsy_snapshot_rejected n state0 setters0 w i j selector :
  reachable foreign user_code n state0 setters0 w ->
  truthy (storeRef w) = false ->
  useContextSelector foreign w i (published w) selector = Throw ProviderError /\
  useContextSetters foreign w j (published w) = Throw ProviderError.
Proof.
  intros Hw Hfalsy.
  pose proof (validation_selector w i (published w) selector) as Hsel.
  pose proof (validation_setters w j (published w)) as Hset.
  rewrite (published_getState _ _ _ _ Hw), Hfalsy in Hsel, Hset. done.
Qed.

(** ** The Subscriber *)

Lemma update_site w i s v d state setters :
  wf w ->
  sites w !! i = Some s ->
  call_getState foreign (fst (useSmartContext w state setters)) (siteStore s) = Ok v ->
  (forall n, next_loc w <= n -> differs s n v = d) ->
  exists s', sites (update foreign user_code state setters w) !! i = Some s' /\
    selectorRef s' = selectorRef s /\
    selectedStateRef s' = selectedStateRef s /\
    pending s' = pending s +
      (if strict_neq (prevStateRef w) state
       then (if d then registrations (CheckForUpdates i) (registry w) else 0)
       else 0).
Proof.
  intros Hwf Hs Hv Hd. destruct (strict_neq (prevStateRef w) state) eqn:Hne.
  - rewrite update_notifies by done.
    destruct (site_call_all (registry w) i s (fst (useSmartContext w state setters))
                v d Hs Hv Hd)
      as (s' & H1 & _ & H2 & H3 & _ & H4).
    exists s'. by split_and!.
  - destruct (update_quiet w state setters Hne) as [x ->].
    exists s. split_and!; try done; simpl; lia.
Qed.

Lemma publisher_getState_render w state setters store :
  publisher_getState w store = true ->
  call_getState foreign (fst (useSmartContext w state setters)) store = Ok state.
Proof.
  intros Hpub.
  by rewrite (publisher_getState_call (fst (useSmartContext w state setters)) store Hpub).
Qed.

(** On unmount the cleanup removes the handler of the call site. *)
Lemma cleanup_removes_handler i w :
  registrations (CheckForUpdates i) (registry (useContextSelector_cleanup i w)) = 0.
Proof.
  unfold useContextSelector_cleanup. rewrite registry_unsubscribe.
  apply registrations_removed.
Qed.

(** C1, as amended: let a Subscriber read this Publisher and let its
    handler be registered once.  When the owner renders with [S_new] and
    the render is committed, the handler calls [forceRender] (once) if
    and only if the Snapshot reference changed and the value the
    projection returns for [S_new] is [!==] the projection stored by the
    Subscriber's last evaluation (an object the projection has just
    allocated always is, the stored value being older);
    otherwise nothing is scheduled, also when the Snapshot reference
    changed.  For a projection [p] that does not allocate and a
    Subscriber last evaluated under [S_old], the Snapshot of the previous
    notification, this reads: if and only if [p(S_new) !== p(S_old)]. *)
Theorem rerender_iff_projection_changes w i s snapshot setters :
  wf w ->
  sites w !! i = Some s ->
  publisher_getState w (siteStore s) = true ->
  registrations (CheckForUpdates i) (registry w) = 1 ->
  (selectorRef s snapshot = Allocated ->
   allocated_before (next_loc w) (selectedStateRef s)) ->
  (scheduled i w (update foreign user_code snapshot setters w) <->
   strict_neq (prevStateRef w) snapshot && changed s snapshot = true) /\
  (strict_neq (prevStateRef w) snapshot && changed s snapshot = true ->
   pending_of i (update foreign user_code snapshot setters w) = S (pending_of i w)) /\
  (strict_neq (prevStateRef w) snapshot && changed s snapshot = false ->
   pending_of i (update foreign user_code snapshot setters w) = pending_of i w) /\
  (forall p, selectorRef s = pure_selector p ->
     selectedStateRef s = p (prevStateRef w) ->
     (scheduled i w (update foreign user_code snapshot setters w) <->
      strict_neq (p snapshot) (p (prevStateRef w)) = true)).
Proof.
  intros Hwf Hs Hpub Hone Hfresh.
  pose proof (publisher_getState_render w snapshot setters _ Hpub) as Hv.
  assert (Hd : forall n, next_loc w <= n -> differs s n snapshot = changed s snapshot).
  { intros n Hn. by apply (differs_changed s (next_loc w)). }
  destruct (update_site w i s snapshot _ snapshot setters Hwf Hs Hv Hd)
    as (s' & Hs' & _ & _ & Hp).
  unfold scheduled, pending_of. rewrite Hs, Hs'. simpl. rewrite Hp, Hone.
  assert (Hmain : pending s <
            pending s + (if strict_neq (prevStateRef w) snapshot
                         then if changed s snapshot then 1 else 0 else 0) <->
            strict_neq (prevStateRef w) snapshot && changed s snapshot = true).
  { destruct (strict_neq (prevStateRef w) snapshot), (changed s snapshot);
      simpl; split; intros; try lia; congruence. }
  split_and!; [exact Hmain| | |].
  - destruct (strict_neq (prevStateRef w) snapshot), (changed s snapshot);
      simpl; intros; try lia; congruence.
  - destruct (strict_neq (prevStateRef w) snapshot), (changed s snapshot);
      simpl; intros; try lia; congruence.
  - intros p Hsel Hcache. rewrite Hmain.
    unfold changed. rewrite Hsel, Hcache. unfold pure_selector.
    destruct (strict_neq (prevStateRef w) snapshot) eqn:Hne; simpl; [done|].
    apply strict_neq_false in Hne. rewrite Hne.
    assert (Hsame : strict_neq (p snapshot) (p snapshot) = false)
      by by apply strict_neq_false.
    by rewrite Hsame.
Qed.

Lemma select_result w i store sel r w' :
  useContextSelector foreign w i store sel = Ok (r, w') ->
  exists x, call_getState foreign w store = Ok x /\ truthy x = true /\
    r = render_projection sel (next_loc w) x /\
    w' = set_sites
           (<[i := Site (match sites w !! i with
                         | Some s => reducerState s + pending s
                         | None => 0
                         end) 0 sel r store]> (sites w))
           (set_next_loc (match sel x with
                          | Existing _ => next_loc w
                          | Allocated => S (S (next_loc w))
                          end) w).
Proof.
  unfold useContextSelector.
  destruct (call_getState foreign w store) as [x|]; [|done].
  destruct (truthy x) eqn:Ht; simpl; [|done].
  unfold render_projection, apply_selector.
  destruct (sel x) as [y|] eqn:Hsel; simpl; intros [= <- <-];
    exists x; by rewrite Hsel.
Qed.

(** C7, as amended: when the handler computes a projection that differs
    from the stored one it calls [forceRender] and nothing else: the
    stored projection and the stored selector stay as the last evaluation
    left them, so the handler, run again before that evaluation, makes
    the same comparison against the same stored value (and, when the
    selector returned an existing value, finds the difference again).
    The stored projection is replaced by the evaluation that follows,
    which also consumes the scheduled renders. *)
Theorem handler_schedules_only w i s v :
  sites w !! i = Some s ->
  call_getState foreign w (siteStore s) = Ok v ->
  differs s (next_loc w) v = true ->
  (exists s', sites (checkForUpdates foreign i w) !! i = Some s' /\
     pending s' = S (pending s) /\
     selectedStateRef s' = selectedStateRef s /\
     selectorRef s' = selectorRef s /\
     siteStore s' = siteStore s /\
     call_getState foreign (checkForUpdates foreign i w) (siteStore s') = Ok v /\
     (forall n x, differs s' n x = differs s n x) /\
     (forall x, selectorRef s v = Existing x ->
        differs s' (next_loc (checkForUpdates foreign i w)) v = true)) /\
  (forall store sel r w',
     useContextSelector foreign (checkForUpdates foreign i w) i store sel = Ok (r, w') ->
     exists x s'', call_getState foreign (checkForUpdates foreign i w) store = Ok x /\
       r = render_projection sel (next_loc (checkForUpdates foreign i w)) x /\
       sites w' !! i = Some s'' /\
       selectedStateRef s'' = r /\ pending s'' = 0).
Proof.
  intros Hs Hv Hd. split.
  - destruct (site_checkForUpdates i i s w Hs) as (s' & H1 & _ & H2 & H3 & H4 & H5).
    rewrite decide_True, Hv, Hd in H5 by done.
    assert (Hsame : forall n x, differs s' n x = differs s n x).
    { intros n x. unfold differs, fresh_projection. by rewrite H2, H3. }
    exists s'. split_and!; try done.
    + lia.
    + by rewrite H4, (call_getState_evolves _ _ _ _ (evolves_checkForUpdates i w)).
    + intros x Hx. rewrite Hsame. revert Hd.
      unfold differs, fresh_projection, apply_selector. by rewrite Hx.
  - intros store sel r w' (x & Hx & _ & Hr & ->)%select_result.
    exists x. eexists.
    split_and!; [done|done|simpl; by rewrite lookup_insert_eq|done|done].
Qed.

(** ** The Setter Accessor *)

Lemma setters_cached w j store o :
  memos w !! j = Some (ref store, o) ->
  (exists v, call_getState foreign w store = Ok v /\ truthy v = true) ->
  useContextSetters foreign w j store = Ok (o, w).
Proof.
  intros Hm (v & Hv & Ht). unfold useContextSetters.
  rewrite Hv, Ht, Hm. simpl. by rewrite decide_True.
Qed.

Lemma setters_cell w j store o w1 :
  useContextSetters foreign w j store = Ok (o, w1) ->
  (exists o', memos w !! j = Some (ref store, o') /\ o = o' /\ w1 = w) \/
  (o = rest_of (next_loc w) store /\
   w1 = set_memos (<[j := (ref store, o)]> (memos w)) (set_next_loc (S (next_loc w)) w)).
Proof.
  unfold useContextSetters. destruct (call_getState _ _ _) as [x|]; [|done].
  destruct (negb (truthy x)); [done|].
  destruct (memos w !! j) as [[dep rest]|].
  - destruct (decide (dep = ref store)) as [->|].
    + intros [= <- <-]. left. by exists rest.
    + intros [= <- <-]. by right.
  - intros [= <- <-]. by right.
Qed.

Lemma cell_step w w' j o :
  step foreign user_code w w' ->
  memos w !! j = Some (ref (published w), o) ->
  memos w' !! j = Some (ref (published w'), o).
Proof.
  intros Hstep Hm. rewrite (proj1 (published_step _ _ Hstep)).
  destruct Hstep as [w state setters|w|w cb|w cb|w i sel v w' H|w j' o' w' H];
    try done.
  - destruct (commit_evolves w (storeRef w)) as [xs [_ _ _ _ _ _ _ _ Hmem _]].
    simpl in Hmem. by rewrite Hmem.
  - by destruct (select_inv _ _ _ _ _ _ H) as (ss & n & Hn & ->).
  - destruct (setters_cell _ _ _ _ _ H) as [(o2 & _ & _ & ->)|[_ ->]]; [done|].
    simpl. rewrite lookup_insert. destruct (decide (j' = j)) as [->|]; [|done].
    unfold useContextSetters in H. destruct (call_getState _ _ _) as [x|]; [|done].
    destruct (negb (truthy x)); [done|]. rewrite Hm in H.
    rewrite decide_True in H by done. injection H as <- Hw.
    exfalso. apply (f_equal next_loc) in Hw. simpl in Hw. lia.
Qed.

Lemma cell_steps w w' j o :
  rtc (step foreign user_code) w w' ->
  memos w !! j = Some (ref (published w), o) ->
  memos w' !! j = Some (ref (published w'), o).
Proof. induction 1 as [|w1 w2 w3 H12 _ IH]; [done|]. intros H. eapply IH, cell_step; done. Qed.

Lemma reachable_steps n state0 setters0 w w' :
  reachable foreign user_code n state0 setters0 w ->
  rtc (step foreign user_code) w w' ->
  reachable foreign user_code n state0 setters0 w'.
Proof.
  intros Hw Hsteps. induction Hsteps as [|w1 w2 w3 H12 _ IH]; [done|].
  apply IH. by eapply reach_step.
Qed.

(** C9: under a Publisher constructed with the mutator set [setters0],
    the object returned by [useContextSetters] holds, under every name
    other than [getState] and [subscribe], the entry [setters0] has under
    that name, and it has no [getState] and no [subscribe] entry; it is
    [setters0] itself when [setters0] does not use these two names.
    Whatever happens to the Publisher afterwards, Snapshot changes
    included, the call site returns the very same object again without
    allocating anything, as long as it reads the same published object;
    the factory runs again when the call site reads another object. *)
Theorem setters_object_memoized n state0 setters0 w j o w1 :
  reachable foreign user_code n state0 setters0 w ->
  useContextSetters foreign w j (published w) = Ok (o, w1) ->
  (forall name, name <> "getState"%string -> name <> "subscribe"%string ->
     props o !! name = setters0 !! name) /\
  props o !! "getState" = None /\
  props o !! "subscribe" = None /\
  (setters0 !! "getState" = None -> setters0 !! "subscribe" = None ->
   props o = setters0) /\
  (forall w2, rtc (step foreign user_code) w1 w2 ->
     truthy (storeRef w2) = true ->
     useContextSetters foreign w2 j (published w2) = Ok (o, w2)) /\
  (forall w2 store v,
     memos w2 !! j = memos w1 !! j ->
     ref store <> ref (published w) ->
     call_getState foreign w2 store = Ok v -> truthy v = true ->
     useContextSetters foreign w2 j store =
       Ok (rest_of (next_loc w2) store,
           set_memos (<[j := (ref store, rest_of (next_loc w2) store)]> (memos w2))
             (set_next_loc (S (next_loc w2)) w2))).
Proof.
  intros Hw Hcall.
  destruct (reachable_inv _ _ _ _ Hw) as (_ & Hp & _ & Hm).
  assert (Hw1 : reachable foreign user_code n state0 setters0 w1).
  { eapply reach_step; [done|]. by eapply step_setters. }
  assert (Hp1 : published w1 = published w).
  { apply published_step. by eapply step_setters. }
  assert (Hprops : props o = delete "subscribe" (delete "getState" (props (published w)))).
  { destruct (setters_cell _ _ _ _ _ Hcall) as [(o' & Hj & -> & _)|[-> _]]; [|done].
    by destruct (Hm _ _ _ Hj). }
  assert (Hcell : memos w1 !! j = Some (ref (published w1), o)).
  { rewrite Hp1.
    destruct (setters_cell _ _ _ _ _ Hcall) as [(o' & Hj & -> & ->)|[_ ->]]; [done|].
    simpl. by rewrite lookup_insert_eq. }
  rewrite Hprops, Hp. simpl. split_and!.
  - intros name H1 H2. by rewrite !lookup_delete_ne, !lookup_insert_ne.
  - by rewrite lookup_delete_ne, lookup_delete_eq.
  - by rewrite lookup_delete_eq.
  - intros Hg Hs. apply map_eq. intros name.
    destruct (decide (name = "subscribe"%string)) as [->|H1];
      [by rewrite lookup_delete_eq|].
    destruct (decide (name = "getState"%string)) as [->|H2].
    + by rewrite lookup_delete_ne, lookup_delete_eq.
    + by rewrite !lookup_delete_ne, !lookup_insert_ne.
  - intros w2 Hsteps Ht. apply setters_cached; [by eapply cell_steps|].
    exists (storeRef w2). split; [|done].
    eapply published_getState, reachable_steps; done.
  - intros w2 store v Hsame Hother Hv Ht. unfold useContextSetters.
    rewrite Hv, Ht, Hsame, Hcell, Hp1, Hp. simpl.
    rewrite decide_False; [done|]. intros H. by apply Hother.
Qed.

End Properties.

(** ** The properties on the small application *)

Lemma notification_pass_witness :
  invoked (events_since demo_two_listeners
             (update demo_foreign demo_code snapshot1 demo_setters demo_two_listeners)) =
  registry demo_two_listeners.
Proof.
  apply (notification_pass demo_foreign demo_code demo_two_listeners snapshot1 demo_setters).
  - split; [vm_compute; lia|reflexivity].
  - reflexivity.
Defined.

Lemma pass_over_frozen_registry_witness :
  invoked (events_since demo_removing_listener
             (update demo_foreign demo_code snapshot1 demo_setters demo_removing_listener)) =
    registry demo_removing_listener /\
  registry (update demo_foreign demo_code snapshot1 demo_setters demo_removing_listener) =
    foldl (fun r l => listener_registry demo_code l snapshot1 r)
      (registry demo_removing_listener) (registry demo_removing_listener) /\
  wf (update demo_foreign demo_code snapshot1 demo_setters demo_removing_listener).
Proof.
  apply (pass_over_frozen_registry demo_foreign demo_code demo_removing_listener snapshot1 demo_setters).
  - split; [vm_compute; lia|reflexivity].
  - reflexivity.
Defined.

(** C6, as stated, fails: callback 0 removes callback 1 before the pass
    reaches it, and callback 1 is invoked all the same. *)
Lemma removed_listener_still_invoked :
  ~ skips_removed demo_foreign demo_code demo_removing_listener snapshot1 demo_setters.
Proof.
  intros H.
  apply (H [UserFn 0] (UserFn 1) []).
  - reflexivity.
  - vm_compute. intros Hin. apply list_elem_of_In in Hin.
    destruct Hin as [Hin|[]]. discriminate Hin.
  - vm_compute. apply list_elem_of_In. right. left. reflexivity.
Qed.

Lemma double_subscription_witness :
  registrations (UserFn 1)
    (registry (unsubscribe (UserFn 1)
       (subscribe (UserFn 1) (subscribe (UserFn 1) demo_mounted)))) = 0.
Proof.
  assert (Hwf : wf demo_mounted) by (split; [vm_compute; lia|reflexivity]).
  exact (proj1 (proj2 (proj2 (proj2
    (double_subscription demo_foreign demo_code demo_mounted (UserFn 1) snapshot1 demo_setters
       Hwf eq_refl))))).
Defined.

(** C5, as stated, fails: after [subscribe(f)] twice, one call of a
    handle leaves no registration of [f]. *)
Lemma handles_are_not_independent :
  ~ independent_handles demo_mounted (UserFn 1).
Proof. unfold independent_handles. vm_compute. discriminate. Qed.

Lemma demo_mounted_reachable :
  reachable demo_foreign demo_code 2 snapshot0 demo_setters demo_mounted.
Proof.
  eapply reach_step; [apply reach_mount|].
  apply (step_commit demo_foreign demo_code
           (fst (useSmartContext_mount 2 snapshot0 demo_setters))).
Qed.

Lemma demo_subscribed_reachable :
  reachable demo_foreign demo_code 2 snapshot0 demo_setters demo_subscribed.
Proof.
  eapply reach_step; [eapply reach_step; [apply demo_mounted_reachable|]|].
  - apply (step_select demo_foreign demo_code demo_mounted 0
             (pure_selector selectCount) (VNum 0)).
    reflexivity.
  - apply step_subscribe.
Qed.

(** Scenarios A and B of the specification: replacing [{count: 0}] by
    [{count: 1}] schedules a render of the component reading [count];
    replacing it by [{count: 0, unrelated: true}] does not. *)
Lemma rerender_iff_projection_changes_witness :
  scheduled 0 demo_subscribed
    (update demo_foreign demo_code snapshot1 demo_setters demo_subscribed) /\
  pending_of 0 (update demo_foreign demo_code snapshot2 demo_setters demo_subscribed) =
    pending_of 0 demo_subscribed.
Proof.
  assert (Hwf : wf demo_subscribed) by (split; [vm_compute; lia|reflexivity]).
  assert (Hs : sites demo_subscribed !! 0 =
               Some (Site 0 0 (pure_selector selectCount) (VNum 0) (published demo_mounted)))
    by reflexivity.
  assert (Hone : registrations (CheckForUpdates 0) (registry demo_subscribed) = 1)
    by reflexivity.
  split.
  - apply (rerender_iff_projection_changes demo_foreign demo_code demo_subscribed 0 _
             snapshot1 demo_setters Hwf Hs eq_refl Hone);
      [intros H; discriminate H|reflexivity].
  - apply (rerender_iff_projection_changes demo_foreign demo_code demo_subscribed 0 _
             snapshot2 demo_setters Hwf Hs eq_refl Hone);
      [intros H; discriminate H|reflexivity].
Defined.

(** C1, as stated, fails: the component is subscribed and holds the
    projection [0] of [{count: 0}]; the owner renders with [{count: 1}],
    the component is evaluated again before the commit, and the commit
    schedules nothing for it although the projection went from [0] to
    [1]. *)
Lemma reevaluated_subscriber_not_scheduled :
  ~ schedules_iff_projection_changes 0 selectCount snapshot0 snapshot1
      demo_subscribed demo_reevaluated_committed.
Proof.
  intros [_ H]. specialize (H eq_refl).
  unfold scheduled, pending_of in H. vm_compute in H. lia.
Qed.

Lemma handler_schedules_only_witness :
  exists s', sites (checkForUpdates demo_foreign 0 demo_rendered) !! 0 = Some s' /\
    pending s' = 1 /\
    selectedStateRef s' = VNum 0 /\
    selectorRef s' = pure_selector selectCount /\
    siteStore s' = published demo_mounted /\
    call_getState demo_foreign (checkForUpdates demo_foreign 0 demo_rendered)
      (siteStore s') = Ok snapshot1 /\
    (forall n x, differs s' n x =
       differs (Site 0 0 (pure_selector selectCount) (VNum 0) (published demo_mounted)) n x) /\
    (forall x,
       pure_selector selectCount snapshot1 = Existing x ->
       differs s' (next_loc (checkForUpdates demo_foreign 0 demo_rendered)) snapshot1 = true).
Proof.
  apply (handler_schedules_only demo_foreign demo_rendered 0
           (Site 0 0 (pure_selector selectCount) (VNum 0) (published demo_mounted))
           snapshot1); reflexivity.
Defined.

(** C7, as stated, fails: the owner has rendered with [{count: 1}], the
    handler computes [1] against the stored [0] and schedules a render,
    yet the stored projection is still [0] when the handler returns. *)
Lemma handler_keeps_stored_projection :
  ~ handler_stores_projection demo_foreign demo_rendered 0.
Proof.
  intros H.
  destruct (H (Site 0 0 (pure_selector selectCount) (VNum 0) (published demo_mounted))
              snapshot1 eq_refl eq_refl eq_refl) as (s' & Hs' & Hsel).
  vm_compute in Hs'. injection Hs' as <-. discriminate Hsel.
Qed.

Lemma published_value_stable_witness :
  snd (useSmartContext demo_subscribed snapshot1 demo_setters) =
    snd (useSmartContext_mount 2 snapshot0 demo_setters) /\
  call_getState demo_foreign (fst (useSmartContext demo_subscribed snapshot1 demo_setters))
    (snd (useSmartContext_mount 2 snapshot0 demo_setters)) = Ok snapshot1 /\
  call_getState demo_foreign (update demo_foreign demo_code snapshot1 demo_setters demo_subscribed)
    (snd (useSmartContext_mount 2 snapshot0 demo_setters)) = Ok snapshot1.
Proof.
  exact (published_value_stable demo_foreign demo_code 2 snapshot0 demo_setters
           demo_subscribed snapshot1 demo_setters demo_subscribed_reachable).
Defined.

(** A Publisher constructed with [null], with [0] or with the empty
    string rejects its consumers. *)
Lemma falsy_snapshot_rejected_witness :
  (useContextSelector demo_foreign (fst (useSmartContext_mount 2 VNull demo_setters)) 0
     (published (fst (useSmartContext_mount 2 VNull demo_setters)))
     (pure_selector selectCount) =
     Throw ProviderError /\
   useContextSetters demo_foreign (fst (useSmartContext_mount 2 VNull demo_setters)) 0
     (published (fst (useSmartContext_mount 2 VNull demo_setters))) =
     Throw ProviderError) /\
  (useContextSelector demo_foreign (fst (useSmartContext_mount 2 (VNum 0) demo_setters)) 0
     (published (fst (useSmartContext_mount 2 (VNum 0) demo_setters)))
     (pure_selector selectCount) =
     Throw ProviderError /\
   useContextSetters demo_foreign (fst (useSmartContext_mount 2 (VNum 0) demo_setters)) 0
     (published (fst (useSmartContext_mount 2 (VNum 0) demo_setters))) =
     Throw ProviderError) /\
  (useContextSelector demo_foreign (fst (useSmartContext_mount 2 (VStr "") demo_setters)) 0
     (published (fst (useSmartContext_mount 2 (VStr "") demo_setters)))
     (pure_selector selectCount) =
     Throw ProviderError /\
   useContextSetters demo_foreign (fst (useSmartContext_mount 2 (VStr "") demo_setters)) 0
     (published (fst (useSmartContext_mount 2 (VStr "") demo_setters))) =
     Throw ProviderError).
Proof.
  split; [|split].
  - exact (falsy_snapshot_rejected demo_foreign demo_code 2 VNull demo_setters _ 0 0
             (pure_selector selectCount) (reach_mount _ _ _ _ _) eq_refl).
  - exact (falsy_snapshot_rejected demo_foreign demo_code 2 (VNum 0) demo_setters _ 0 0
             (pure_selector selectCount) (reach_mount _ _ _ _ _) eq_refl).
  - exact (falsy_snapshot_rejected demo_foreign demo_code 2 (VStr "") demo_setters _ 0 0
             (pure_selector selectCount) (reach_mount _ _ _ _ _) eq_refl).
Defined.

(** The accessor under the demo Publisher returns [{setCount}], and
    returns the same object after the Snapshot was replaced. *)
Lemma setters_object_memoized_witness :
  match useContextSetters demo_foreign demo_subscribed 0 (published demo_subscribed) with
  | Ok (o, w1) =>
      props o !! "setCount" = Some (VFun 1) /\
      props o !! "getState" = None /\
      props o !! "subscribe" = None /\
      useContextSetters demo_foreign (update demo_foreign demo_code snapshot1 demo_setters w1) 0
        (published (update demo_foreign demo_code snapshot1 demo_setters w1)) =
      Ok (o, update demo_foreign demo_code snapshot1 demo_setters w1)
  | Throw _ => False
  end.
Proof.
  destruct (useContextSetters demo_foreign demo_subscribed 0 (published demo_subscribed))
    as [[o w1]|e] eqn:Hcall; [|discriminate Hcall].
  destruct (setters_object_memoized demo_foreign demo_code 2 snapshot0 demo_setters
              demo_subscribed 0 o w1 demo_subscribed_reachable Hcall)
    as (Hentries & Hget & Hsub & _ & Hsame & _).
  split_and!; [|exact Hget|exact Hsub|].
  - rewrite Hentries by discriminate. reflexivity.
  - apply Hsame.
    + eapply rtc_l; [apply (step_render demo_foreign demo_code w1 snapshot1 demo_setters)|].
      eapply rtc_l; [|apply rtc_refl].
      apply (step_commit demo_foreign demo_code
               (fst (useSmartContext w1 snapshot1 demo_setters))).
    + change (truthy (getState (update demo_foreign demo_code snapshot1 demo_setters w1)) = true).
      rewrite (update_getState demo_foreign demo_code w1 snapshot1 demo_setters). reflexivity.
Defined.

(** * Further properties of the hooks *)

Section Registry.

(** ** [subscribe] and its handles *)

Lemma filter_removed_again (cb : listener) (xs : list listener) :
  filter (fun sub => sub <> cb) (filter (fun sub => sub <> cb) xs) =
  filter (fun sub => sub <> cb) xs.
Proof.
  induction xs as [|x xs IH]; [done|].
  rewrite filter_cons. destruct (decide (x <> cb)) as [Hx|Hx]; [|done].
  by rewrite filter_cons, decide_True, IH.
Qed.

Lemma filter_absent (cb : listener) (xs : list listener) :
  cb ∉ xs -> filter (fun sub => sub <> cb) xs = xs.
Proof.
  induction xs as [|x xs IH]; [done|].
  intros [Hx Hxs]%not_elem_of_cons.
  rewrite filter_cons, decide_True by done. by rewrite IH.
Qed.

Lemma filter_removed_count (cb : listener) (xs : list listener) :
  length (filter (fun sub => sub <> cb) xs) + registrations cb xs = length xs.
Proof.
  induction xs as [|x xs IH]; [done|].
  rewrite filter_cons, (registrations_cons cb x xs).
  destruct (decide (x <> cb)) as [Hx|Hx].
  - rewrite decide_False by done. simpl. lia.
  - rewrite decide_True by (by destruct (decide (x = cb))). simpl. lia.
Qed.

(** X1: The unsubscribe handle of [cb], called a second time, changes nothing
    in the registry; but the handle is not bound to the registration that
    returned it: called after [cb] was subscribed again, it removes the
    new registration too. *)
Theorem handle_called_again cb w :
  registry (unsubscribe cb (unsubscribe cb w)) = registry (unsubscribe cb w) /\
  registry (unsubscribe cb (subscribe cb (unsubscribe cb w))) =
    registry (unsubscribe cb w).
Proof.
  split.
  - by rewrite !registry_unsubscribe, filter_removed_again.
  - rewrite registry_unsubscribe, registry_subscribe, !registry_unsubscribe.
    rewrite filter_app, filter_removed_again.
    rewrite (filter_cons _ cb), decide_False by (intros H; by apply H).
    by rewrite filter_nil, app_nil_r.
Qed.

(** X2: An unsubscribe handle shortens the registry by the number of
    registrations of its listener, keeps the other listeners in their
    order, and keeps the number of registrations of each of them. *)
Theorem handle_removes_its_listener_only cb w :
  length (registry (unsubscribe cb w)) + registrations cb (registry w) =
    length (registry w) /\
  sublist (registry (unsubscribe cb w)) (registry w) /\
  (forall g, g <> cb ->
     registrations g (registry (unsubscribe cb w)) = registrations g (registry w)).
Proof.
  rewrite registry_unsubscribe. split_and!.
  - apply filter_removed_count.
  - apply sublist_filter.
  - intros g Hg. by apply registrations_kept.
Qed.

(** X3: Subscribing a listener that is not registered and calling the
    returned handle gives back the registry as it was. *)
Theorem subscribe_then_unsubscribe cb w :
  cb ∉ registry w ->
  registry (unsubscribe cb (subscribe cb w)) = registry w.
Proof.
  intros Hcb. rewrite registry_unsubscribe, registry_subscribe, filter_app.
  rewrite filter_absent by done.
  rewrite (filter_cons _ cb), decide_False by (intros H; by apply H).
  by rewrite filter_nil, app_nil_r.
Qed.

(** X4: Effect, cleanup, effect (what React does to a freshly mounted
    component in strict mode) leaves the handler of the call site
    registered exactly once, whatever the registry held before, and does
    not change the registrations of the other listeners. *)
Theorem effect_cleanup_effect i w :
  registrations (CheckForUpdates i)
    (registry (useContextSelector_effect i
       (useContextSelector_cleanup i (useContextSelector_effect i w)))) = 1 /\
  (forall g, g <> CheckForUpdates i ->
     registrations g
       (registry (useContextSelector_effect i
          (useContextSelector_cleanup i (useContextSelector_effect i w)))) =
     registrations g (registry w)).
Proof.
  unfold useContextSelector_effect, useContextSelector_cleanup.
  rewrite registry_subscribe, registry_unsubscribe, registry_subscribe.
  split.
  - rewrite registrations_app, registrations_removed.
    rewrite registrations_cons, decide_True by done. done.
  - intros g Hg.
    rewrite registrations_app, registrations_kept by done.
    rewrite registrations_app, !registrations_cons.
    rewrite decide_False by done. unfold registrations. simpl. lia.
Qed.

Lemma cleanups_remove js : forall w l,
  l ∈ registry (foldr useContextSelector_cleanup w js) ->
  l ∈ registry w /\ forall j, j ∈ js -> l <> CheckForUpdates j.
Proof.
  induction js as [|j js IH]; intros w l; simpl.
  - intros Hl. split; [done|]. intros j Hj. by apply elem_of_nil in Hj.
  - unfold useContextSelector_cleanup at 1. rewrite registry_unsubscribe.
    intros [Hne Hl]%list_elem_of_filter.
    destruct (IH w l Hl) as [Hw Hjs]. split; [done|].
    intros j' [->|Hj']%elem_of_cons; [done|by apply Hjs].
Qed.

(** X5: No leak: when the registry holds only handlers of call sites and each
    of these call sites runs its cleanup, in any order, the registry is
    empty. *)
Theorem registry_empty_after_cleanups js w :
  (forall l, l ∈ registry w -> exists j, j ∈ js /\ l = CheckForUpdates j) ->
  registry (foldr useContextSelector_cleanup w js) = [].
Proof.
  intros Hall. apply elem_of_nil_inv. intros l Hl.
  destruct (cleanups_remove js w l Hl) as [Hw Hjs].
  destruct (Hall l Hw) as (j & Hj & ->). by apply (Hjs j).
Qed.

End Registry.

Section Lifecycle.

Variable foreign : loc -> value.
Variable user_code : nat -> prog.

(** ** Commits *)

Lemma commit_notifies w state :
  wf w -> strict_neq (prevStateRef w) state = true ->
  commit foreign user_code state w =
  set_layoutDeps (Some state)
    (set_prevStateRef state (call_all foreign user_code (registry w) w)).
Proof.
  intros [Hsub Hdeps] Hne.
  assert (Hpass : layoutEffect foreign user_code state w =
    set_prevStateRef state (call_all foreign user_code (registry w) w)).
  { unfold layoutEffect. rewrite Hne. by rewrite forEach_frozen. }
  unfold commit. rewrite Hpass.
  destruct (layoutDeps w) as [d|]; [|done].
  subst d. unfold object_is.
  apply strict_neq_true in Hne. by rewrite bool_decide_eq_false_2.
Qed.

Lemma commit_quiet w state :
  strict_neq (prevStateRef w) state = false ->
  exists d, commit foreign user_code state w = set_layoutDeps d w.
Proof.
  intros Heq. unfold commit, layoutEffect. rewrite Heq.
  destruct (layoutDeps w) as [d|] eqn:Hd.
  - destruct (object_is d state).
    + exists (Some d). rewrite <- Hd. by destruct w.
    + by exists (Some state).
  - by exists (Some state).
Qed.

Lemma commit_settles w state :
  wf w ->
  prevStateRef (commit foreign user_code state w) = state /\
  layoutDeps (commit foreign user_code state w) = Some state.
Proof.
  intros [_ Hdeps]. unfold commit, layoutEffect.
  destruct (layoutDeps w) as [d|] eqn:Hd.
  - destruct (object_is d state) eqn:Hsame.
    + apply bool_decide_eq_true in Hsame. subst. by rewrite Hd.
    + destruct (strict_neq _ _) eqn:Hne; simpl; [done|].
      by apply strict_neq_false in Hne.
  - destruct (strict_neq _ _) eqn:Hne; simpl; [done|].
    by apply strict_neq_false in Hne.
Qed.

(** X6: After an update with [state] the Publisher is settled on [state]
    (both [prevStateRef.current] and the dependency of the layout effect
    are [state]), so a further render of the owner with the same
    Snapshot reference invokes no listener. *)
Theorem repeated_update_is_silent w state setters setters' :
  wf w ->
  prevStateRef (update foreign user_code state setters w) = state /\
  layoutDeps (update foreign user_code state setters w) = Some state /\
  invoked (events_since (update foreign user_code state setters w)
             (update foreign user_code state setters' (update foreign user_code state setters w))) = [].
Proof.
  intros Hwf.
  destruct (commit_settles (fst (useSmartContext w state setters)) state Hwf)
    as [Hprev Hdeps].
  split_and!; [done|done|].
  assert (Heq : strict_neq (prevStateRef (update foreign user_code state setters w)) state = false).
  { apply strict_neq_false. exact Hprev. }
  destruct (update_quiet foreign user_code _ state setters' Heq) as [d ->].
  by rewrite (events_since_app _ _ []) by (simpl; by rewrite app_nil_r).
Qed.

Lemma registry_subscribe_all subs : forall w,
  registry (foldl (fun w' cb => subscribe cb w') w subs) = registry w ++ subs /\
  subscribersRef (foldl (fun w' cb => subscribe cb w') w subs) = subscribersRef w /\
  next_loc (foldl (fun w' cb => subscribe cb w') w subs) = next_loc w /\
  prevStateRef (foldl (fun w' cb => subscribe cb w') w subs) = prevStateRef w /\
  layoutDeps (foldl (fun w' cb => subscribe cb w') w subs) = layoutDeps w.
Proof.
  induction subs as [|cb subs IH]; intros w; simpl.
  - by rewrite app_nil_r.
  - destruct (IH (subscribe cb w)) as (-> & -> & -> & -> & ->).
    by rewrite registry_subscribe, <- app_assoc.
Qed.

(** X7: The first commit notifies: the placeholder [{}] held by
    [prevStateRef] is an object of its own (the state is not that
    object), so the listeners subscribed
    between the first render and its commit are all invoked, in order,
    by that commit, although no Snapshot was replaced. *)
Theorem first_commit_notifies n state setters subs :
  state <> VObj n ->
  invoked (events_since
    (foldl (fun w' cb => subscribe cb w')
       (fst (useSmartContext_mount n state setters)) subs)
    (commit foreign user_code state
       (foldl (fun w' cb => subscribe cb w')
          (fst (useSmartContext_mount n state setters)) subs))) = subs.
Proof.
  intros Hfresh.
  set (w0 := fst (useSmartContext_mount n state setters)).
  destruct (registry_subscribe_all subs w0) as (Hreg & Hsub & Hnext & Hprev & Hdeps).
  set (w := foldl (fun w' cb => subscribe cb w') w0 subs) in *.
  assert (Hwf : wf w).
  { split; [rewrite Hsub, Hnext; simpl; lia|by rewrite Hdeps]. }
  assert (Hne : strict_neq (prevStateRef w) state = true).
  { rewrite Hprev. apply strict_neq_true. simpl. congruence. }
  rewrite commit_notifies by done.
  destruct (evolves_call_all foreign user_code (registry w) w)
    as [_ _ _ _ _ _ _ _ _ (evs & Htr & Hinv & _)].
  rewrite (events_since_app _ _ evs) by done.
  rewrite Hinv, Hreg. unfold w0, registry, array_at. simpl.
  by rewrite lookup_singleton_eq.
Qed.

(** ** What the steps of a Publisher's life leave alone *)

(** X8: Only a render of the owner changes what [getState()] returns:
    commits (and the notification passes they run), [subscribe],
    unsubscribe handles and the renders of the consumers never do. *)
Theorem getState_changes_on_render_only w w' :
  step foreign user_code w w' ->
  getState w' = getState w \/
  exists state setters, w' = fst (useSmartContext w state setters) /\ getState w' = state.
Proof.
  intros Hstep.
  destruct Hstep as [w state setters|w|w cb|w cb|w i sel v w' H|w j o w' H].
  - right. by exists state, setters.
  - left. destruct (commit_evolves foreign user_code w (storeRef w)) as [xs [_ _ _ Hs _ _ _ _ _ _]].
    exact Hs.
  - by left.
  - by left.
  - left. by destruct (select_inv _ _ _ _ _ _ _ H) as (ss & n & Hn & ->).
  - left. by destruct (setters_inv _ _ _ _ _ _ H) as [->| ->].
Qed.

(** X9: The published object keeps the mutators of the first render: the
    [setters] argument of a later render is ignored, the two control
    functions are the closures created by the first render, and they
    hide entries of the mutator set that use their names. *)
Theorem published_keeps_first_setters n state0 setters0 w state setters :
  reachable foreign user_code n state0 setters0 w ->
  props (snd (useSmartContext w state setters)) !! "getState" =
    Some (VFun (getStateFn w)) /\
  props (snd (useSmartContext w state setters)) !! "subscribe" =
    Some (VFun (S (S (S n)))) /\
  (forall name, name <> "getState"%string -> name <> "subscribe"%string ->
     props (snd (useSmartContext w state setters)) !! name = setters0 !! name).
Proof.
  intros (_ & Hp & Hg & _)%reachable_inv. simpl. rewrite Hp, Hg. simpl.
  split_and!.
  - by rewrite lookup_insert_eq.
  - by rewrite lookup_insert_ne, lookup_insert_eq.
  - intros name H1 H2. by rewrite !lookup_insert_ne.
Qed.

End Lifecycle.

Section ConsumerCells.

Variable foreign : loc -> value.
Variable user_code : nat -> prog.

(** ** The Subscriber's cells *)

Lemma call_getState_callable w w2 store v :
  call_getState foreign w store = Ok v ->
  exists v2, call_getState foreign w2 store = Ok v2.
Proof.
  unfold call_getState.
  destruct (props store !! "getState") as [[]|]; try done. by eexists.
Qed.

(** X10: The handler works with the selector of the latest render and
    with the store that render read: once a render of the call site with
    selector [q] has returned [v], the handler reads the state from that
    store, calls [q] on it anew, and asks for a render exactly when the
    result differs from [v], whatever selector the call site was
    subscribed with. *)
Theorem handler_uses_latest_selector w i store q v w1 w2 :
  useContextSelector foreign w i store q = Ok (v, w1) ->
  sites w2 !! i = sites w1 !! i ->
  exists x, call_getState foreign w2 store = Ok x /\
    pending_of i (checkForUpdates foreign i w2) =
    pending_of i w2 +
      (if strict_neq (fst (apply_selector q (next_loc w2) x)) v then 1 else 0).
Proof.
  intros (x0 & Hx0 & _ & _ & ->)%select_result Hsame.
  simpl in Hsame. rewrite lookup_insert_eq in Hsame.
  destruct (call_getState_callable w w2 store x0 Hx0) as [x Hx].
  exists x. split; [done|].
  destruct (site_checkForUpdates foreign i i _ w2 Hsame)
    as (s' & Hs' & _ & _ & _ & _ & Hp).
  unfold pending_of. rewrite Hs', Hsame. simpl. rewrite Hp.
  rewrite decide_True by done. simpl. by rewrite Hx.
Qed.

(** X11: The read path under a Publisher whose Snapshot is truthy: the render
    returns what its selector returns for the current Snapshot (the
    value itself when the selector returns an existing one), stores it,
    leaves no render of the call site pending, adds the renders that
    were pending to the reducer count, and touches neither the registry,
    nor the state, nor the cells of the other call sites. *)
Theorem read_path_is_fresh n state0 setters0 w i q :
  reachable foreign user_code n state0 setters0 w ->
  truthy (storeRef w) = true ->
  exists w1 s1,
    useContextSelector foreign w i (published w) q =
      Ok (render_projection q (next_loc w) (storeRef w), w1) /\
    (forall y, q (storeRef w) = Existing y ->
       render_projection q (next_loc w) (storeRef w) = y) /\
    sites w1 !! i = Some s1 /\
    pending s1 = 0 /\
    reducerState s1 =
      from_option (fun s => reducerState s + pending s) 0 (sites w !! i) /\
    selectedStateRef s1 = render_projection q (next_loc w) (storeRef w) /\
    siteStore s1 = published w /\
    registry w1 = registry w /\
    getState w1 = getState w /\
    (forall j, j <> i -> sites w1 !! j = sites w !! j).
Proof.
  intros Hw Ht.
  destruct (useContextSelector foreign w i (published w) q) as [[r w1]|e] eqn:Hsel.
  - destruct (select_result _ _ _ _ _ _ _ Hsel) as (x & Hx & _ & -> & ->).
    rewrite (published_getState _ _ _ _ _ _ Hw) in Hx. injection Hx as <-.
    eexists. eexists. split_and!; try done.
    + intros y Hy. unfold render_projection. by rewrite Hy.
    + simpl. by rewrite lookup_insert_eq.
    + done.
    + simpl. by destruct (sites w !! i).
    + done.
    + done.
    + intros j Hj. simpl. by rewrite lookup_insert_ne.
  - pose proof (validation_selector foreign w i (published w) q) as Hval.
    rewrite (published_getState _ _ _ _ _ _ Hw), Ht, Hsel in Hval. done.
Qed.

Lemma commit_site w i s v d state :
  wf w ->
  sites w !! i = Some s ->
  call_getState foreign w (siteStore s) = Ok v ->
  (forall n, next_loc w <= n -> differs s n v = d) ->
  exists s', sites (commit foreign user_code state w) !! i = Some s' /\
    pending s' = pending s +
      (if strict_neq (prevStateRef w) state
       then (if d then registrations (CheckForUpdates i) (registry w) else 0)
       else 0).
Proof.
  intros Hwf Hs Hv Hd. destruct (strict_neq (prevStateRef w) state) eqn:Hne.
  - rewrite commit_notifies by done.
    destruct (site_call_all foreign user_code (registry w) i s w v d Hs Hv Hd)
      as (s' & H1 & _ & _ & _ & _ & H4).
    by exists s'.
  - destruct (commit_quiet foreign user_code w state Hne) as [x ->].
    exists s. split; [done|lia].
Qed.

(** X12: A call site that was evaluated after the owner's render and before
    its commit has read the new Snapshot already.  When its selector
    returns an existing value for that Snapshot, the notification pass
    of the commit schedules no render for it; when its selector
    allocates its result, the handler's call returns a new object and
    the pass schedules one render per registration of the handler. *)
Theorem evaluated_site_not_scheduled n state0 setters0 w state setters i q v w2 :
  reachable foreign user_code n state0 setters0 w ->
  useContextSelector foreign (fst (useSmartContext w state setters)) i
    (published w) q = Ok (v, w2) ->
  v = render_projection q (next_loc w) state /\
  pending_of i (commit foreign user_code state w2) =
    match q state with
    | Existing _ => 0
    | Allocated =>
        if strict_neq (prevStateRef w) state
        then registrations (CheckForUpdates i) (registry w) else 0
    end.
Proof.
  intros Hw Hsel.
  assert (Hw1 : reachable foreign user_code n state0 setters0
                  (fst (useSmartContext w state setters))).
  { eapply reach_step; [done|constructor]. }
  assert (Hw2 : reachable foreign user_code n state0 setters0 w2).
  { eapply reach_step; [exact Hw1|]. by eapply step_select. }
  destruct (reachable_inv _ _ _ _ _ _ Hw2) as (Hwf & _).
  pose proof (published_getState _ _ _ _ _ _ Hw2) as Hread.
  destruct (select_result _ _ _ _ _ _ _ Hsel) as (x & Hx & _ & Hv & Hw2eq).
  change (published w) with (published (fst (useSmartContext w state setters))) in Hx.
  rewrite (published_getState _ _ _ _ _ _ Hw1) in Hx. simpl in Hx.
  injection Hx as <-. simpl in Hv. split; [done|].
  set (c := match sites (fst (useSmartContext w state setters)) !! i with
            | Some s => reducerState s + pending s
            | None => 0
            end) in Hw2eq.
  assert (Hs : sites w2 !! i = Some (Site c 0 q v (published w))).
  { rewrite Hw2eq. simpl. by rewrite lookup_insert_eq. }
  assert (Hstore : call_getState foreign w2 (siteStore (Site c 0 q v (published w))) =
                   Ok state).
  { simpl. rewrite Hw2eq in Hread. simpl in Hread.
    rewrite Hw2eq. exact Hread. }
  assert (Hreg : registry w2 = registry w) by (by rewrite Hw2eq).
  assert (Hprev : prevStateRef w2 = prevStateRef w) by (by rewrite Hw2eq).
  destruct (q state) as [y|] eqn:Hq.
  - assert (Hd : forall m, next_loc w2 <= m ->
                   differs (Site c 0 q v (published w)) m state = false).
    { intros m _. unfold differs, fresh_projection, apply_selector. simpl.
      rewrite Hq. simpl. apply strict_neq_false.
      rewrite Hv. unfold render_projection. by rewrite Hq. }
    destruct (commit_site w2 i _ state false state Hwf Hs Hstore Hd) as (s' & Hs' & Hp).
    unfold pending_of. rewrite Hs'. simpl. rewrite Hp. simpl.
    by destruct (strict_neq _ _).
  - assert (Hd : forall m, next_loc w2 <= m ->
                   differs (Site c 0 q v (published w)) m state = true).
    { intros m Hm. unfold differs, fresh_projection, apply_selector. simpl.
      rewrite Hq. simpl. apply strict_neq_true.
      rewrite Hv. unfold render_projection. rewrite Hq.
      rewrite Hw2eq in Hm. simpl in Hm. intros [= ->]. lia. }
    destruct (commit_site w2 i _ state true state Hwf Hs Hstore Hd) as (s' & Hs' & Hp).
    unfold pending_of. rewrite Hs'. simpl. rewrite Hp. simpl.
    by rewrite Hprev, Hreg.
Qed.


(** ** Validation *)

(** X14: The two consumers validate alike and raise the same error.  It is
    the [TypeError] of the call [store.getState()] exactly when the
    object has no callable [getState] (the error with the message about
    the provider is then never reached), and the provider error exactly
    when [getState()] could be called and returned a falsy value. *)
Theorem consumers_raise_same_error w i j store q :
  (forall e, useContextSelector foreign w i store q = Throw e <->
             useContextSetters foreign w j store = Throw e) /\
  (useContextSelector foreign w i store q = Throw TypeError <->
   getState_missing store) /\
  (useContextSelector foreign w i store q = Throw ProviderError <->
   exists v, call_getState foreign w store = Ok v /\ truthy v = false).
Proof.
  pose proof (validation_selector foreign w i store q) as Hsel.
  pose proof (validation_setters foreign w j store) as Hset.
  pose proof (call_getState_throw foreign w store) as Hmiss.
  assert (Hte : forall e, call_getState foreign w store = Throw e -> e = TypeError).
  { unfold call_getState. destruct (props store !! "getState") as [[]|]; congruence. }
  destruct (call_getState foreign w store) as [v|e] eqn:Hcall; simpl in Hmiss.
  - destruct (truthy v) eqn:Hv.
    + destruct (useContextSelector _ _ _ _ _) as [r|]; [|done].
      destruct (useContextSetters _ _ _ _) as [r'|]; [|done].
      split; [|split].
      * intros e. split; discriminate.
      * split; [discriminate|]. intros H. apply Hmiss in H. discriminate.
      * split; [discriminate|]. intros (v' & [= <-] & H). congruence.
    + rewrite Hsel, Hset. split; [|split].
      * intros e. split; by intros [= <-].
      * split; [discriminate|]. intros H. apply Hmiss in H. discriminate.
      * split; [|done]. intros _. by exists v.
  - rewrite (Hte e eq_refl) in *. rewrite Hsel, Hset. split; [|split].
    + intros e'. split; by intros [= <-].
    + split; [|done]. intros _. by apply Hmiss.
    + split; [discriminate|]. intros (v' & ? & _). discriminate.
Qed.

(** ** The objects returned by [useContextSetters] *)

Lemma memo_refs_step w w' :
  step foreign user_code w w' ->
  (forall j dep rest, memos w !! j = Some (dep, rest) -> ref rest < next_loc w) ->
  (forall j dep rest, memos w' !! j = Some (dep, rest) -> ref rest < next_loc w').
Proof.
  intros Hstep Hm.
  destruct Hstep as [w state setters|w|w cb|w cb|w i sel v w' H|w j o w' H]; try done.
  - destruct (commit_evolves foreign user_code w (storeRef w))
      as [xs [Hn _ _ _ _ _ _ _ Hmem _]].
    simpl in Hn, Hmem. intros j dep rest. rewrite Hmem. intros Hj.
    specialize (Hm _ _ _ Hj). lia.
  - intros j dep rest Hj. specialize (Hm _ _ _ Hj). simpl. lia.
  - destruct (select_inv _ _ _ _ _ _ _ H) as (ss & n & Hn & ->).
    intros j dep rest Hj. specialize (Hm _ _ _ Hj). simpl. lia.
  - destruct (setters_inv _ _ _ _ _ _ H) as [->| ->]; [done|].
    intros j' dep rest. simpl. rewrite lookup_insert.
    destruct (decide (j = j')).
    + intros [= <- <-]. simpl. lia.
    + intros Hj. specialize (Hm _ _ _ Hj). lia.
Qed.

Lemma memo_refs n state0 setters0 w :
  reachable foreign user_code n state0 setters0 w ->
  forall j dep rest, memos w !! j = Some (dep, rest) -> ref rest < next_loc w.
Proof.
  induction 1 as [|w w' _ IH Hstep].
  - intros j dep rest. simpl. by rewrite lookup_empty.
  - by eapply memo_refs_step.
Qed.

(** X15: Memoization is per call site: two call sites under the same
    Publisher receive two different objects with the same entries. *)
Theorem call_sites_get_distinct_objects n state0 setters0 w j j' o1 w1 o2 w2 :
  reachable foreign user_code n state0 setters0 w ->
  j <> j' ->
  memos w !! j' = None ->
  useContextSetters foreign w j (published w) = Ok (o1, w1) ->
  useContextSetters foreign w1 j' (published w1) = Ok (o2, w2) ->
  ref o1 <> ref o2 /\ props o1 = props o2.
Proof.
  intros Hw Hjj Hnone H1 H2.
  destruct (reachable_inv _ _ _ _ _ _ Hw) as (_ & _ & _ & Hm).
  pose proof (memo_refs _ _ _ _ Hw) as Hrefs.
  assert (Hp1 : published w1 = published w).
  { apply (published_step foreign user_code). by eapply step_setters. }
  destruct (setters_cell _ _ _ _ _ _ H1) as [(o' & Hj & -> & ->)|[-> ->]].
  - destruct (setters_cell _ _ _ _ _ _ H2) as [(o'' & Hj' & _)|[-> _]]; [congruence|].
    specialize (Hrefs _ _ _ Hj). destruct (Hm _ _ _ Hj) as [_ Hprops].
    split; [simpl; lia|]. by rewrite Hprops.
  - destruct (setters_cell _ _ _ _ _ _ H2) as [(o'' & Hj' & _)|[-> _]].
    + simpl in Hj'. rewrite lookup_insert_ne in Hj' by done. congruence.
    + split; [simpl; lia|]. by rewrite Hp1.
Qed.

End ConsumerCells.

(** ** The further properties on the small application *)

Lemma subscribe_then_unsubscribe_witness :
  registry (unsubscribe (UserFn 1) (subscribe (UserFn 1) demo_mounted)) =
  registry demo_mounted.
Proof.
  apply (subscribe_then_unsubscribe (UserFn 1) demo_mounted).
  vm_compute. intros Hin. apply list_elem_of_In in Hin. destruct Hin.
Defined.

Lemma registry_empty_after_cleanups_witness :
  registry (foldr useContextSelector_cleanup demo_subscribed [0]) = [].
Proof.
  apply (registry_empty_after_cleanups [0] demo_subscribed).
  intros l Hl. exists 0. split; [apply list_elem_of_In; left; reflexivity|].
  vm_compute in Hl. apply list_elem_of_In in Hl. destruct Hl as [<-|[]]. reflexivity.
Defined.

Lemma repeated_update_is_silent_witness :
  prevStateRef (update demo_foreign demo_code snapshot1 demo_setters demo_two_listeners) = snapshot1 /\
  layoutDeps (update demo_foreign demo_code snapshot1 demo_setters demo_two_listeners) = Some snapshot1 /\
  invoked (events_since (update demo_foreign demo_code snapshot1 demo_setters demo_two_listeners)
             (update demo_foreign demo_code snapshot1 ∅
                (update demo_foreign demo_code snapshot1 demo_setters demo_two_listeners))) = [].
Proof.
  apply (repeated_update_is_silent demo_foreign demo_code demo_two_listeners snapshot1 demo_setters ∅).
  split; [vm_compute; lia|reflexivity].
Defined.

Lemma first_commit_notifies_witness :
  invoked (events_since
    (foldl (fun w' cb => subscribe cb w')
       (fst (useSmartContext_mount 2 snapshot0 demo_setters)) [UserFn 1; UserFn 2])
    (commit demo_foreign demo_code snapshot0
       (foldl (fun w' cb => subscribe cb w')
          (fst (useSmartContext_mount 2 snapshot0 demo_setters)) [UserFn 1; UserFn 2]))) =
  [UserFn 1; UserFn 2].
Proof.
  apply (first_commit_notifies demo_foreign demo_code 2 snapshot0 demo_setters [UserFn 1; UserFn 2]).
  discriminate.
Defined.

Lemma getState_changes_on_render_only_witness :
  getState (commit demo_foreign demo_code (storeRef demo_rendered) demo_rendered) =
    getState demo_rendered \/
  exists state setters,
    commit demo_foreign demo_code (storeRef demo_rendered) demo_rendered =
      fst (useSmartContext demo_rendered state setters) /\
    getState (commit demo_foreign demo_code (storeRef demo_rendered) demo_rendered) = state.
Proof.
  apply (getState_changes_on_render_only demo_foreign demo_code).
  apply step_commit.
Defined.

Lemma published_keeps_first_setters_witness :
  props (snd (useSmartContext demo_subscribed snapshot1 ∅)) !! "getState" =
    Some (VFun (getStateFn demo_subscribed)) /\
  props (snd (useSmartContext demo_subscribed snapshot1 ∅)) !! "subscribe" =
    Some (VFun 5) /\
  (forall name, name <> "getState"%string -> name <> "subscribe"%string ->
     props (snd (useSmartContext demo_subscribed snapshot1 ∅)) !! name =
     demo_setters !! name).
Proof.
  exact (published_keeps_first_setters demo_foreign demo_code 2 snapshot0 demo_setters
           demo_subscribed snapshot1 ∅ demo_subscribed_reachable).
Defined.

(** The component subscribed with [s => s.count] and rendered again with
    [selectSeven] is not asked to render when [count] changes. *)
Lemma handler_uses_latest_selector_witness :
  exists x,
    call_getState demo_foreign (fst (useSmartContext demo_reselected snapshot1 demo_setters))
      (published demo_subscribed) = Ok x /\
    pending_of 0 (checkForUpdates demo_foreign 0
                    (fst (useSmartContext demo_reselected snapshot1 demo_setters))) =
    pending_of 0 (fst (useSmartContext demo_reselected snapshot1 demo_setters)) +
      (if strict_neq
            (fst (apply_selector selectSeven
                    (next_loc (fst (useSmartContext demo_reselected snapshot1 demo_setters)))
                    x))
            (VNum 7)
       then 1 else 0).
Proof.
  exact (handler_uses_latest_selector demo_foreign demo_subscribed 0
           (published demo_subscribed) selectSeven (VNum 7) demo_reselected
           (fst (useSmartContext demo_reselected snapshot1 demo_setters))
           eq_refl eq_refl).
Defined.

Lemma read_path_is_fresh_witness :
  exists w1 s1,
    useContextSelector demo_foreign demo_rendered 0 (published demo_rendered)
      (pure_selector selectCount) =
      Ok (render_projection (pure_selector selectCount) (next_loc demo_rendered)
            (storeRef demo_rendered), w1) /\
    (forall y, pure_selector selectCount (storeRef demo_rendered) = Existing y ->
       render_projection (pure_selector selectCount) (next_loc demo_rendered)
         (storeRef demo_rendered) = y) /\
    sites w1 !! 0 = Some s1 /\
    pending s1 = 0 /\
    reducerState s1 =
      from_option (fun s => reducerState s + pending s) 0 (sites demo_rendered !! 0) /\
    selectedStateRef s1 =
      render_projection (pure_selector selectCount) (next_loc demo_rendered)
        (storeRef demo_rendered) /\
    siteStore s1 = published demo_rendered /\
    registry w1 = registry demo_rendered /\
    getState w1 = getState demo_rendered /\
    (forall j, j <> 0 -> sites w1 !! j = sites demo_rendered !! j).
Proof.
  apply (read_path_is_fresh demo_foreign demo_code 2 snapshot0 demo_setters).
  - eapply reach_step; [apply demo_subscribed_reachable|].
    apply (step_render demo_foreign demo_code demo_subscribed snapshot1 demo_setters).
  - reflexivity.
Defined.

(** The subscribed component evaluated between the owner's render with
    [{count: 1}] and its commit: with [s => s.count] the commit schedules
    nothing, with [s => [s.count]] it schedules a render. *)
Lemma evaluated_site_not_scheduled_witness :
  match useContextSelector demo_foreign demo_rendered 0 (published demo_subscribed)
          (pure_selector selectCount) with
  | Ok (v, w2) =>
      v = VNum 1 /\ pending_of 0 (commit demo_foreign demo_code snapshot1 w2) = 0
  | Throw _ => False
  end /\
  match useContextSelector demo_foreign demo_rendered 0 (published demo_subscribed)
          selectCountArray with
  | Ok (v, w2) => pending_of 0 (commit demo_foreign demo_code snapshot1 w2) = 1
  | Throw _ => False
  end.
Proof.
  split.
  - destruct (useContextSelector demo_foreign demo_rendered 0 (published demo_subscribed)
                (pure_selector selectCount)) as [[v w2]|e] eqn:Hsel; [|discriminate Hsel].
    exact (evaluated_site_not_scheduled demo_foreign demo_code 2 snapshot0 demo_setters
             demo_subscribed snapshot1 demo_setters 0 (pure_selector selectCount) v w2
             demo_subscribed_reachable Hsel).
  - destruct (useContextSelector demo_foreign demo_rendered 0 (published demo_subscribed)
                selectCountArray) as [[v w2]|e] eqn:Hsel; [|discriminate Hsel].
    exact (proj2 (evaluated_site_not_scheduled demo_foreign demo_code 2 snapshot0
             demo_setters demo_subscribed snapshot1 demo_setters 0 selectCountArray v w2
             demo_subscribed_reachable Hsel)).
Defined.


Lemma call_sites_get_distinct_objects_witness :
  match useContextSetters demo_foreign demo_subscribed 0 (published demo_subscribed) with
  | Ok (o1, w1) =>
      match useContextSetters demo_foreign w1 1 (published w1) with
      | Ok (o2, w2) => ref o1 <> ref o2 /\ props o1 = props o2
      | Throw _ => False
      end
  | Throw _ => False
  end.
Proof.
  destruct (useContextSetters demo_foreign demo_subscribed 0 (published demo_subscribed))
    as [[o1 w1]|e] eqn:H1; [|discriminate H1].
  destruct (useContextSetters demo_foreign w1 1 (published w1))
    as [[o2 w2]|e] eqn:H2.
  - exact (call_sites_get_distinct_objects demo_foreign demo_code 2 snapshot0 demo_setters
             demo_subscribed 0 1 o1 w1 o2 w2 demo_subscribed_reachable
             ltac:(discriminate) eq_refl H1 H2).
  - vm_compute in H1. injection H1 as <- <-. discriminate H2.
Defined.
